(** * set_versions.py: version resolution and template rendering

    A shallow embedding of [documentation/set_versions.py] and the
    properties its specification states about it.

    Conventions of the embedding:
    - Python [str] is [string]; the character-level operations ([lower],
      [capitalize], [strip], [split], [int]) are modelled on ASCII text.
    - [collections.OrderedDict] is an association list kept in first-insertion
      order; plain dictionaries that are only looked up are [gmap]s.
    - An uncaught Python exception is a [Raise]; [sys.exit] is the exception
      [SystemExit], as in Python.
    - [subprocess.run(["git", ...])] is a function from the argument list to
      the completed process (return code and standard output).
    - The file system is a finite map from paths to contents; the
      diagnostic [print]s of the script are not modelled, the [print] of the
      [getlatest] mode is. *)

From Stdlib Require Import ZArith Ascii String List Lia.
From stdpp Require Import base option list gmap strings fin_maps.

Local Open Scope Z_scope.
Local Open Scope nat_scope.


(** * Outcomes of Python code *)

(** The argument of [sys.exit]: an integer status, or a message that the
    interpreter prints to standard error before exiting with status 1. *)
Inductive exit_arg : Type :=
| ExitCode (n : Z)
| ExitMsg (msg : string).

(** The exceptions the script can raise. *)
Inductive exn : Type :=
| ValueError
| KeyError
| IndexError
| NameError
| FileNotFoundError
| SystemExit (a : exit_arg).

Inductive result (A : Type) : Type :=
| Ok (a : A)
| Raise (e : exn).
Arguments Ok {A} a.
Arguments Raise {A} e.

Global Instance result_ret : MRet result := λ A a, Ok a.
Global Instance result_bind : MBind result := λ A B f m,
  match m with
  | Ok a => f a
  | Raise e => Raise e
  end.

(** [d[k]] on something that answers [None] for a missing key. *)
Definition or_raise {A} (e : exn) (o : option A) : result A :=
  match o with
  | Some a => Ok a
  | None => Raise e
  end.

(** * Python strings (ASCII model) *)

Module Py.

Definition code (c : ascii) : nat := nat_of_ascii c.

Definition is_upper (c : ascii) : bool := (65 <=? code c) && (code c <=? 90).
Definition is_lower (c : ascii) : bool := (97 <=? code c) && (code c <=? 122).

(** [str.isspace] on the ASCII range: TAB, LF, VT, FF, CR, FS, GS, RS, US
    and the space. *)
Definition is_space (c : ascii) : bool :=
  ((9 <=? code c) && (code c <=? 13)) || ((28 <=? code c) && (code c <=? 32)).

Definition lower_char (c : ascii) : ascii :=
  if is_upper c then ascii_of_nat (code c + 32) else c.
Definition upper_char (c : ascii) : ascii :=
  if is_lower c then ascii_of_nat (code c - 32) else c.

(** [s.lower()] *)
Fixpoint lower (s : string) : string :=
  match s with
  | EmptyString => EmptyString
  | String c s' => String (lower_char c) (lower s')
  end.

(** [s.capitalize()] *)
Definition capitalize (s : string) : string :=
  match s with
  | EmptyString => EmptyString
  | String c s' => String (upper_char c) (lower s')
  end.

(** [s.startswith(p)] *)
Definition startswith (p s : string) : bool := String.prefix p s.

(** [s[n:]] *)
Fixpoint drop (n : nat) (s : string) : string :=
  match n, s with
  | O, _ => s
  | S _, EmptyString => EmptyString
  | S n', String _ s' => drop n' s'
  end.

(** [s[0]]: a string of one character. *)
Definition first_char (s : string) : result string :=
  match s with
  | EmptyString => Raise IndexError
  | String c _ => Ok (String c EmptyString)
  end.

(** [sub in s] *)
Fixpoint contains (sub s : string) : bool :=
  String.prefix sub s ||
  match s with
  | EmptyString => false
  | String _ s' => contains sub s'
  end.

(** [s.count(c)] for a one-character [c]. *)
Fixpoint count_char (c : ascii) (s : string) : nat :=
  match s with
  | EmptyString => 0
  | String d s' => (if decide (d = c) then 1 else 0) + count_char c s'
  end.

(** [c * n] for a one-character [c]. *)
Fixpoint repeat_char (c : ascii) (n : nat) : string :=
  match n with
  | O => EmptyString
  | S n' => String c (repeat_char c n')
  end.

(** [s.lstrip()], [s.rstrip()], [s.strip()] *)
Fixpoint lstrip (s : string) : string :=
  match s with
  | EmptyString => EmptyString
  | String c s' => if is_space c then lstrip s' else s
  end.

Fixpoint rstrip (s : string) : string :=
  match s with
  | EmptyString => EmptyString
  | String c s' =>
      match rstrip s' with
      | EmptyString => if is_space c then EmptyString else String c EmptyString
      | r => String c r
      end
  end.

Definition strip (s : string) : string := rstrip (lstrip s).

(** [s.split(sep)] for a one-character separator: never empty, keeps empty
    fields. *)
Fixpoint split (sep : ascii) (s : string) : list string :=
  match s with
  | EmptyString => [EmptyString]
  | String c s' =>
      if decide (c = sep) then EmptyString :: split sep s'
      else match split sep s' with
           | w :: ws => String c w :: ws
           | [] => [String c EmptyString]
           end
  end.

(** [s.split()]: the maximal runs of non-space characters. *)
Fixpoint split_ws (s : string) : list string :=
  match s with
  | EmptyString => []
  | String c s' =>
      if is_space c then split_ws s'
      else match s' with
           | EmptyString => [String c EmptyString]
           | String c' _ =>
               if is_space c' then String c EmptyString :: split_ws s'
               else match split_ws s' with
                    | w :: ws => String c w :: ws
                    | [] => [String c EmptyString]
                    end
           end
  end.

(** The cut at the last occurrence of [sep], if there is one. *)
Fixpoint rcut (sep : ascii) (s : string) : option (string * string) :=
  match s with
  | EmptyString => None
  | String c s' =>
      match rcut sep s' with
      | Some (a, b) => Some (String c a, b)
      | None => if decide (c = sep) then Some (EmptyString, s') else None
      end
  end.

(** [s.rsplit(sep, 1)] for a one-character separator. *)
Definition rsplit1 (sep : ascii) (s : string) : list string :=
  match rcut sep s with
  | Some (a, b) => [a; b]
  | None => [s]
  end.

(** [sep.join(l)] *)
Fixpoint join (sep : string) (l : list string) : string :=
  match l with
  | [] => EmptyString
  | [x] => x
  | x :: l' => x +:+ sep +:+ join sep l'
  end.

(** [s.replace(old, new)]: the occurrences of [old] are taken from the left
    and do not overlap; [skip] counts the characters of an occurrence that
    are still to be passed over. *)
Fixpoint replace_go (old new : string) (skip : nat) (s : string) : string :=
  match s with
  | EmptyString => EmptyString
  | String c s' =>
      match skip with
      | S k => replace_go old new k s'
      | O =>
          if String.prefix old s
          then new +:+ replace_go old new (String.length old - 1) s'
          else String c (replace_go old new 0 s')
      end
  end.

Fixpoint intersperse (new : string) (s : string) : string :=
  match s with
  | EmptyString => new
  | String c s' => new +:+ String c (intersperse new s')
  end.

Definition replace (old new s : string) : string :=
  match old with
  | EmptyString => intersperse new s
  | _ => replace_go old new 0 s
  end.

(** [int(s)] in base 10: surrounding white space, an optional sign, digits
    with single underscores between them. [None] is [ValueError]. *)
Definition digit (c : ascii) : option Z :=
  if (48 <=? code c) && (code c <=? 57) then Some (Z.of_nat (code c - 48)) else None.

Fixpoint int_digits (acc : Z) (after_digit : bool) (s : string) : option Z :=
  match s with
  | EmptyString => if after_digit then Some acc else None
  | String c s' =>
      if decide (c = "_"%char)
      then (if after_digit then int_digits acc false s' else None)
      else match digit c with
           | Some d => int_digits (10 * acc + d)%Z true s'
           | None => None
           end
  end.

Definition int (s : string) : option Z :=
  match strip s with
  | EmptyString => None
  | String c r =>
      if decide (c = "+"%char) then int_digits 0 false r
      else if decide (c = "-"%char) then Z.opp <$> int_digits 0 false r
      else int_digits 0 false (String c r)
  end.

(** [x in l] for a list, [l.index(x)], [l.remove(x)], [l[i]], [l[-1]]. *)
Definition list_in (x : string) (l : list string) : bool := bool_decide (x ∈ l).

Fixpoint index (x : string) (l : list string) : result nat :=
  match l with
  | [] => Raise ValueError
  | y :: l' => if decide (y = x) then Ok 0 else n ← index x l'; Ok (S n)
  end.

Fixpoint remove (x : string) (l : list string) : result (list string) :=
  match l with
  | [] => Raise ValueError
  | y :: l' => if decide (y = x) then Ok l' else r ← remove x l'; Ok (y :: r)
  end.

Definition item {A} (l : list A) (i : nat) : result A := or_raise IndexError (l !! i).

Definition last_item {A} (l : list A) : result A := or_raise IndexError (last l).

(** [sorted(l, key=f)] on the list of (key, element) pairs: stable, so an
    insertion sort that puts the head before the later elements with an
    equal key. *)
Fixpoint insert_sorted (k : Z) (v : string) (l : list (Z * string)) : list (Z * string) :=
  match l with
  | [] => [(k, v)]
  | (k', v') :: l' =>
      if (k <=? k')%Z then (k, v) :: l else (k', v') :: insert_sorted k v l'
  end.

Fixpoint sort_keyed (l : list (Z * string)) : list (Z * string) :=
  match l with
  | [] => []
  | (k, v) :: l' => insert_sorted k v (sort_keyed l')
  end.

(** The keys [int(v)], computed before sorting; [int] may raise. *)
Fixpoint keyed_int (l : list string) : result (list (Z * string)) :=
  match l with
  | [] => Ok []
  | v :: l' =>
      k ← or_raise ValueError (int v);
      r ← keyed_int l';
      Ok ((k, v) :: r)
  end.

(** [sorted(l, key=int)] *)
Definition sorted_key_int (l : list string) : result (list string) :=
  kl ← keyed_int l;
  Ok (map snd (sort_keyed kl)).

End Py.

(** * The release registry *)

(** One object of [releases.json], with the fields the script reads. *)
Record Release : Type := {
  release_codename : string;
  series_version : string;
  status : string;
  series : string;
}.

(** [collections.OrderedDict] with string keys and values. *)
Module OD.

Definition t : Type := list (string * string).

(** [d[k] = v]: an existing key keeps its position. *)
Fixpoint set (k v : string) (d : t) : t :=
  match d with
  | [] => [(k, v)]
  | (k', v') :: d' =>
      if decide (k' = k) then (k, v) :: d' else (k', v') :: set k v d'
  end.

Fixpoint get (k : string) (d : t) : option string :=
  match d with
  | [] => None
  | (k', v) :: d' => if decide (k' = k) then Some v else get k d'
  end.

(** [d[k]] *)
Definition getitem (d : t) (k : string) : result string := or_raise KeyError (get k d).

Definition keys (d : t) : list string := map fst d.

End OD.

(** The local variables of [get_releases]. *)
Record releases_state : Type := {
  st_release_series : OD.t;
  st_activereleases : list string;
  st_devbranch : string;
  st_ltsseries : list string;
}.

(** The body of the loop over the registry. *)
Definition get_releases_step (st : releases_state) (release : Release) : releases_state :=
  let codename := Py.lower (release_codename release) in
  {| st_release_series := OD.set codename (series_version release) (st_release_series st);
     st_devbranch :=
       if decide (status release = "Active Development") then codename else st_devbranch st;
     st_activereleases :=
       if decide (series release = "current")
       then st_activereleases st ++ [codename] else st_activereleases st;
     st_ltsseries :=
       if Py.contains "LTS until" (status release)
       then st_ltsseries st ++ [codename] else st_ltsseries st |}.

Definition get_releases_loop (releases : list Release) : releases_state :=
  fold_left get_releases_step releases
    {| st_release_series := []; st_activereleases := [];
       st_devbranch := ""; st_ltsseries := [] |}.

(** [get_releases]: the tuple (activereleases, devbranch, ltsseries,
    release_series). *)
Definition get_releases (releases : list Release)
  : result (list string * string * list string * OD.t) :=
  let st := get_releases_loop releases in
  activereleases ← Py.remove (st_devbranch st) (st_activereleases st);
  Ok (activereleases, st_devbranch st, st_ltsseries st, st_release_series st).

(** * The environment of a run *)

(** [subprocess.CompletedProcess], as far as the script reads it. *)
Record completed : Type := {
  returncode : Z;
  stdout : string;
}.

Record Env : Type := {
  sys_argv : list string;
  releases_json : list Release;
  (** [subprocess.run(["git"] + args, ...)] *)
  git : list string → completed;
}.

(** [subprocess.run(..., check=True)] raises when the command fails; the
    two [try] blocks of the script catch exactly that exception. *)
Inductive checked (A : Type) : Type :=
| Completed (a : A)
| CalledProcessError
| Other (e : exn).
Arguments Completed {A} a.
Arguments CalledProcessError {A}.
Arguments Other {A} e.

Definition run_check (E : Env) (args : result (list string)) : checked completed :=
  match args with
  | Raise e => Other e
  | Ok a => let r := git E a in
            if decide (returncode r = 0%Z) then Completed r else CalledProcessError
  end.

Definition except_CalledProcessError {A} (body : checked A) (handler : result unit)
  : result unit :=
  match body with
  | Completed _ => Ok ()
  | CalledProcessError => handler
  | Other e => Raise e
  end.

Definition LF : ascii := "010"%char.
Definition nl : string := String LF EmptyString.
Definition dquote : string := String "034"%char EmptyString.

Definition msg_not_a_repository : string :=
  "Building yocto-docs must be done from its Git repository." +:+ nl +:+
  "Clone the documentation repository with the following command:" +:+ nl +:+
  "git clone https://git.yoctoproject.org/yocto-docs ".

Definition msg_fetch_tags : string :=
  "Please run 'git fetch --tags' before building the documentation".

(** Lines 102-108: are we in a Git repository? *)
Definition check_repository (E : Env) : result unit :=
  except_CalledProcessError
    (run_check E (Ok ["rev-parse"; "--is-inside-work-tree"]))
    (Raise (SystemExit (ExitMsg msg_not_a_repository))).

(** Lines 110-114: is the tag of the first active release there? *)
Definition check_tags (E : Env) (activereleases : list string) (release_series : OD.t)
  : result unit :=
  except_CalledProcessError
    (run_check E (a ← Py.item activereleases 0;
                  v ← OD.getitem release_series a;
                  Ok ["show"; "yocto-" +:+ v]))
    (Raise (SystemExit (ExitMsg msg_fetch_tags))).

(** * Version resolution *)

Definition bitbake_mapping : gmap string string :=
  list_to_map
    [ ("wrynose", "2.18"); ("whinlatter", "2.16"); ("walnascar", "2.12");
      ("styhead", "2.10"); ("scarthgap", "2.8"); ("nanbield", "2.6");
      ("mickledore", "2.4"); ("langdale", "2.2"); ("kirkstone", "2.0");
      ("honister", "1.52"); ("hardknott", "1.50"); ("gatesgarth", "1.48");
      ("dunfell", "1.46") ].

Definition poky_mapping : gmap string string :=
  list_to_map [ ("3.4", "26.0"); ("3.3", "25.0"); ("3.2", "24.0"); ("3.1", "23.0") ].

(** The variables set while resolving the version; [None] is Python's
    [None]. *)
Record resolved : Type := {
  ourversion : string;
  ourseries : option string;
  bitbakeversion : option string;
  is_branch_tip : bool;
}.

(** Lines 122-126: the first series of the registry with that version. *)
Fixpoint find_series (seriesversion : string) (release_series : OD.t) : option string :=
  match release_series with
  | [] => None
  | (k, v) :: d => if decide (v = seriesversion) then Some k else find_series seriesversion d
  end.

(** Lines 118-127: the first tag at HEAD that starts with [yocto-]; the
    answer [None] leaves [ourversion] at [None]. *)
Fixpoint resolve_from_tags (release_series : OD.t) (tags : list string)
  : result (option resolved) :=
  match tags with
  | [] => Ok None
  | t :: tags' =>
      if Py.startswith "yocto-" t then
        let version := Py.drop 6 t in
        let seriesversion := Py.join "." (take 2 (Py.split "." version)) in
        match find_series seriesversion release_series with
        | Some k =>
            b ← or_raise KeyError (bitbake_mapping !! k);
            Ok (Some {| ourversion := version; ourseries := Some k;
                        bitbakeversion := Some b; is_branch_tip := false |})
        | None =>
            Ok (Some {| ourversion := version; ourseries := None;
                        bitbakeversion := None; is_branch_tip := false |})
        end
      else resolve_from_tags release_series tags'
  end.

(** Python truth value of [possible_branch]: [None] and the empty string
    are false. *)
Definition truthy (b : option string) : bool :=
  match b with
  | None => false
  | Some EmptyString => false
  | Some _ => true
  end.

(** Lines 142-150: one candidate of the guess. *)
Definition guess_step (E : Env) (st : option string * nat) (b : string)
  : option string * nat :=
  let '(possible_branch, branch_count) := st in
  let result := git E ["log"; "--format=oneline"; "HEAD..origin/" +:+ b] in
  if decide (returncode result = 0%Z) then
    let count := Py.count_char LF (stdout result) in
    if negb (truthy possible_branch) || (count <? branch_count)
    then (Some b, count)
    else st
  else st.

Definition guess_loop (E : Env) (candidates : list string) : option string * nat :=
  fold_left (guess_step E) candidates (None, 0).

(** Lines 139-154. *)
Definition guess_branch (E : Env) (release_series : OD.t) : string :=
  let possible_branch := fst (guess_loop E (OD.keys release_series ++ ["master"])) in
  if truthy possible_branch then default "master" possible_branch else "master".

(** Lines 131-179: we are floating on a branch. *)
Definition resolve_from_branch (E : Env) (release_series : OD.t) (devbranch : string)
  : result resolved :=
  let branch0 := Py.strip (stdout (git E ["branch"; "--show-current"])) in
  let branch :=
    if bool_decide (branch0 = "")
       || negb (Py.list_in branch0 (OD.keys release_series ++ ["master"; "master-next"]))
    then guess_branch E release_series
    else branch0 in
  if decide (branch = "master") then
    Ok {| ourversion := "dev"; ourseries := Some devbranch;
          bitbakeversion := Some "dev"; is_branch_tip := false |}
  else if decide (branch = "master-next") then
    Ok {| ourversion := "next"; ourseries := Some devbranch;
          bitbakeversion := Some "next"; is_branch_tip := false |}
  else
    b ← or_raise KeyError (bitbake_mapping !! branch);
    v ← OD.getitem release_series branch;
    let head_commit := Py.strip (stdout (git E ["rev-parse"; "--short"; "HEAD"])) in
    let branch_commit := Py.strip (stdout (git E ["rev-parse"; "--short"; branch])) in
    if decide (head_commit ≠ branch_commit) then
      Ok {| ourversion := v +:+ "-" +:+ head_commit; ourseries := Some branch;
            bitbakeversion := Some b; is_branch_tip := false |}
    else
      Ok {| ourversion := v +:+ "-tip"; ourseries := Some branch;
            bitbakeversion := Some b; is_branch_tip := true |}.

(** Lines 116-179. *)
Definition resolve_version (E : Env) (release_series : OD.t) (devbranch : string)
  : result resolved :=
  r ← resolve_from_tags release_series
        (Py.split_ws (stdout (git E ["tag"; "--points-at"; "HEAD"])));
  match r with
  | None => resolve_from_branch E release_series devbranch
  | Some r => Ok r
  end.

(** * Derived fields *)

(** A value that is a list of strings or a string: what [l or "dunfell"]
    evaluates to. *)
Inductive list_or_str : Type :=
| AList (l : list string)
| AStr (s : string).

(** [l or alt] for a list [l]: the empty list is false. *)
Definition or_list (l alt : list string) : list string :=
  match l with
  | [] => alt
  | _ => l
  end.

Definition or_str (l : list string) (alt : string) : list_or_str :=
  match l with
  | [] => AStr alt
  | _ => AList l
  end.

(** [v[0]] *)
Definition getitem0 (v : list_or_str) : result string :=
  match v with
  | AList l => Py.item l 0
  | AStr s => Py.first_char s
  end.

(** Line 182: [series[series.index(ourseries)+1:] or [""]]. *)
Definition previousseries (release_series : OD.t) (ourseries : string)
  : result (list string) :=
  let series := OD.keys release_series in
  i ← Py.index ourseries series;
  Ok (or_list (List.skipn (i + 1) series) [""]).

(** Line 183: [[k for k in previousseries if k in ltsseries] or "dunfell"]. *)
Definition lastlts (previous ltsseries : list string) : list_or_str :=
  or_str (List.filter (λ k, Py.list_in k ltsseries) previous) "dunfell".

(** Lines 185-194: the pair (latestreltag, latesttag); [latesttag] stays
    unbound when the tag found does not start with [yocto-]. *)
Definition latest_tags (E : Env) (version : string) : string * option string :=
  let latestreltag :=
    Py.strip (stdout (git E ["describe"; "--abbrev=0"; "--tags"; "--match"; "yocto-*"])) in
  if decide (latestreltag ≠ "") then
    if Py.startswith "yocto-" latestreltag
    then (latestreltag, Some (Py.drop 6 latestreltag))
    else (latestreltag, None)
  else ("yocto-" +:+ version, Some version).

(** Reading a variable that may be unbound. *)
Definition bound (v : option string) : result string := or_raise NameError v.

(** Lines 207-217: the value of DISTRO. *)
Definition distro (version : string) (branch_tip : bool) (latesttag : option string)
    (release_series : OD.t) (devbranch : string) : result string :=
  if branch_tip then bound latesttag
  else if Py.list_in version ["dev"; "next"] then OD.getitem release_series devbranch
  else Ok version.

(** * The replacement table *)

(** Lines 234-240. *)
Definition add_pokyversion (seriesversion version : string)
    (replacements : gmap string string) : result (gmap string string) :=
  match poky_mapping !! seriesversion with
  | Some pokyversion =>
      pokyversion' ←
        (if decide (version ≠ seriesversion) then
           point ← Py.item (Py.rsplit1 "." version) 1;
           Ok (pokyversion +:+ "." +:+ point)
         else Ok (pokyversion +:+ ".0"));
      Ok (<["POKYVERSION" := pokyversion']> replacements)
  | None => Ok replacements
  end.

(** Lines 221-240. *)
Definition make_replacements (release_series : OD.t) (distro : string)
    (latesttag : option string) (ourseries version bitbakeversion : string)
    (previous : list string) (lts : list_or_str) : result (gmap string string) :=
  latesttag' ← bound latesttag;
  seriesversion ← OD.getitem release_series ourseries;
  minus_one ← Py.item previous 0;
  lts0 ← getitem0 lts;
  let replacements : gmap string string :=
    <["BITBAKE_SERIES" := bitbakeversion]>
    (<["DOCCONF_VERSION" := version]>
    (<["YOCTO_DOC_VERSION" := version]>
    (<["DISTRO_NAME_NO_CAP_LTS" := lts0]>
    (<["DISTRO_NAME_NO_CAP_MINUS_ONE" := minus_one]>
    (<["DISTRO_NAME" := Py.capitalize ourseries]>
    (<["DISTRO_NAME_NO_CAP" := ourseries]>
    (<["DISTRO_RELEASE_SERIES" := seriesversion]>
    (<["DISTRO_LATEST_TAG" := latesttag']>
    (<["DISTRO" := distro]> ∅))))))))) in
  seriesversion' ← OD.getitem release_series ourseries;
  add_pokyversion seriesversion' version replacements.

(** * The file system and the script monad *)

Record world : Type := {
  files : gmap string string;
  printed : list string;
}.

Definition M (A : Type) : Type := world → result A * world.

Global Instance M_ret : MRet M := λ A a w, (Ok a, w).
Global Instance M_bind : MBind M := λ A B f m w,
  match m w with
  | (Ok a, w') => f a w'
  | (Raise e, w') => (Raise e, w')
  end.

Definition lift {A} (r : result A) : M A := λ w, (r, w).

Definition print (s : string) : M unit :=
  λ w, (Ok (), {| files := files w; printed := printed w ++ [s] |}).

(** [os.path.exists(path)] *)
Definition exists_ (path : string) : M bool :=
  λ w, (Ok (bool_decide (is_Some (files w !! path))), w).

(** [open(path, "r")] followed by [read()] *)
Definition read_file (path : string) : M string :=
  λ w, (or_raise FileNotFoundError (files w !! path), w).

(** [open(path, "w")]: the file is created or emptied. *)
Definition open_w (path : string) : M unit :=
  λ w, (Ok (), {| files := <[path := ""]> (files w); printed := printed w |}).

(** [f.write(s)] on the file opened at [path]. *)
Definition append_to (path : string) (s : string) (w : world) : world :=
  {| files := <[path := default "" (files w !! path) +:+ s]> (files w);
     printed := printed w |}.

Definition write (path : string) (s : string) : M unit :=
  λ w, (Ok (), append_to path s w).

(** [for x in l: body] *)
Fixpoint for_ {A} (l : list A) (body : A → M unit) : M unit :=
  match l with
  | [] => mret ()
  | x :: l' => body x ;; for_ l' body
  end.

(** [r.readlines()]: every line keeps its line feed. *)
Fixpoint readlines (s : string) : list string :=
  match s with
  | EmptyString => []
  | String c s' =>
      if decide (c = LF) then String c EmptyString :: readlines s'
      else match readlines s' with
           | l :: ls => String c l :: ls
           | [] => [String c EmptyString]
           end
  end.

(** * Rendering poky.yaml *)

(** Lines 246-251: what is written for one line of the template.
    [split] never returns an empty list, so [data[0]] is its head. *)
Definition render_line (replacements : gmap string string) (line : string) : string :=
  let data := Py.split ":" line in
  let k := Py.strip (default "" (head data)) in
  match replacements !! k with
  | Some v => k +:+ " : " +:+ dquote +:+ v +:+ dquote +:+ nl
  | None => line
  end.

(** Lines 242-251. *)
Definition render_poky_yaml (replacements : gmap string string) : M unit :=
  e ← exists_ "poky.yaml.in";
  if (e : bool) then
    content ← read_file "poky.yaml.in";
    open_w "poky.yaml";;
    for_ (readlines content) (λ line, write "poky.yaml" (render_line replacements line))
  else mret ().

(** * Rendering switchers.js *)

(** Lines 255-272. *)
Definition get_latest_tag (E : Env) (release_series : OD.t) (branch : string)
  : result string :=
  sv ← OD.getitem release_series branch;
  let branch_versions :=
    Py.split_ws (stdout (git E ["tag"; "--list"; "yocto-" +:+ sv +:+ "*"])) in
  sorted ← Py.sorted_key_int
              (map (λ v, Py.replace ("yocto-" +:+ sv) "0"
                           (Py.replace ("yocto-" +:+ sv +:+ ".") "" v))
                   branch_versions);
  match sorted with
  | [] => Ok ""
  | _ =>
      latest ← Py.last_item sorted;
      if decide (latest ≠ "0") then Ok (sv +:+ "." +:+ latest) else Ok sv
  end.

(** Lines 274-280. *)
Definition get_abbrev_hash (E : Env) (ref : string) : string :=
  Py.strip (stdout (git E ["rev-parse"; "--short"; ref])).

Definition switchers_js : string := "sphinx-static/switchers.js".

(** Lines 286-301: one line of the template. *)
Definition switchers_line (E : Env) (activereleases : list string)
    (release_series : OD.t) (line : string) : M unit :=
  if Py.contains "VERSIONS_PLACEHOLDER" line then
    write switchers_js
      ("    'dev': {'title': 'Unstable (dev)', 'hash': '"
       +:+ get_abbrev_hash E "master" +:+ "'}," +:+ nl);;
    for_ activereleases (λ branch,
      series ← lift (OD.getitem release_series branch);
      latest ← lift (get_latest_tag E release_series branch);
      write switchers_js
        ("    '" +:+ series +:+ "-tip': {'title': '" +:+ Py.capitalize branch
         +:+ " (" +:+ latest +:+ ")', 'hash': '" +:+ get_abbrev_hash E branch
         +:+ "'}," +:+ nl))
  else if Py.contains "ALL_RELEASES_PLACEHOLDER" line then
    for_ (OD.keys release_series) (λ series,
      sv ← lift (OD.getitem release_series series);
      latest ← lift (get_latest_tag E release_series series);
      write switchers_js
        ("    '" +:+ sv +:+ "': {'codename': '" +:+ Py.capitalize series
         +:+ "', 'latest_tag': '" +:+ latest +:+ "'}," +:+ nl))
  else if Py.contains "LATEST_VERSION_PLACEHOLDER" line then
    a ← lift (Py.item activereleases 0);
    latest_series ← lift (OD.getitem release_series a);
    write switchers_js ("    '" +:+ latest_series +:+ "-tip'" +:+ nl)
  else write switchers_js line.

(** Lines 283-301. *)
Definition render_switchers (E : Env) (activereleases : list string)
    (release_series : OD.t) : M unit :=
  content ← read_file "sphinx-static/switchers.js.in";
  open_w switchers_js;;
  for_ (readlines content) (switchers_line E activereleases release_series).

(** * Generating releases.rst *)

Definition releases_rst : string := "releases.rst".

Definition bullet (tag : string) : string :=
  "- :yocto_docs:`" +:+ tag +:+ " Documentation </" +:+ tag +:+ ">`" +:+ nl.

(** The test of lines 324 and 348. *)
Definition tag_matches (seriesversion tag : string) : bool :=
  bool_decide (tag = seriesversion) || Py.startswith (seriesversion +:+ ".") tag.

(** Lines 317-321 and 340-344. *)
Definition write_title (seriesversion name : string) : M unit :=
  let title := "Release Series " +:+ seriesversion +:+ " (" +:+ name +:+ ")" in
  write releases_rst (Py.repeat_char "*" (String.length title) +:+ nl);;
  write releases_rst (title +:+ nl);;
  write releases_rst (Py.repeat_char "*" (String.length title) +:+ nl);;
  write releases_rst nl.

(** Lines 323-325 and 347-349. *)
Definition write_bullets (seriesversion : string) (tags : list string) : M unit :=
  for_ tags (λ tag,
    if tag_matches seriesversion tag then write releases_rst (bullet tag) else mret ()).

(** Lines 316-326: the section of one active release. *)
Definition supported_section (release_series : OD.t) (tags : list string)
    (activerelease : string) : M unit :=
  sv ← lift (OD.getitem release_series activerelease);
  write_title sv activerelease;;
  write_bullets sv tags;;
  write releases_rst nl.

(** Lines 333-350: the section of one other series, if it has one. *)
Definition outdated_section (release_series : OD.t) (tags : list string)
    (devbranch : string) (activereleases : list string) (series : string) : M unit :=
  if bool_decide (series = devbranch) || Py.list_in series activereleases then mret ()
  else if bool_decide (series = "jethro-pre") then mret ()
  else
    sv ← lift (OD.getitem release_series series);
    write_title sv series;;
    (if bool_decide (series = "jethro")
     then write releases_rst ("- :yocto_docs:`1.9 Documentation </1.9>`" +:+ nl)
     else mret ());;
    write_bullets sv tags;;
    write releases_rst nl.

(** Lines 307-350. *)
Definition write_releases_rst (E : Env) (activereleases : list string)
    (devbranch : string) (release_series : OD.t) : M unit :=
  let yocto_tags :=
    Py.split_ws (stdout (git E ["tag"; "--list"; "--sort=version:refname"; "yocto-*"])) in
  let tags := map (Py.drop 6) yocto_tags in
  open_w releases_rst;;
  write releases_rst ("===========================" +:+ nl);;
  write releases_rst (" Supported Release Manuals" +:+ nl);;
  write releases_rst ("===========================" +:+ nl);;
  write releases_rst nl;;
  for_ activereleases (supported_section release_series tags);;
  write releases_rst ("==========================" +:+ nl);;
  write releases_rst (" Outdated Release Manuals" +:+ nl);;
  write releases_rst ("==========================" +:+ nl);;
  write releases_rst nl;;
  for_ (OD.keys release_series)
       (outdated_section release_series tags devbranch activereleases).

(** * The script *)

(** What [%s] prints for a variable that may be [None]. *)
Definition str_of (v : option string) : string := default "None" v.

(** Lines 116-350: resolve the version, build the table, write the three
    files. *)
Definition build (E : Env) (activereleases : list string) (devbranch : string)
    (ltsseries : list string) (release_series : OD.t) : M unit :=
  r ← lift (resolve_version E release_series devbranch);
  (* [series.index(None)] raises ValueError *)
  series ← lift (or_raise ValueError (ourseries r));
  previous ← lift (previousseries release_series series);
  let lts := lastlts previous ltsseries in
  let latesttag := snd (latest_tags E (ourversion r)) in
  d ← lift (distro (ourversion r) (is_branch_tip r) latesttag release_series devbranch);
  replacements ← lift (make_replacements release_series d latesttag series
                         (ourversion r) (str_of (bitbakeversion r)) previous lts);
  render_poky_yaml replacements;;
  render_switchers E activereleases release_series;;
  write_releases_rst E activereleases devbranch release_series.

Definition script (E : Env) : M unit :=
  '(activereleases, devbranch, ltsseries, release_series) ←
    lift (get_releases (releases_json E));
  if bool_decide (sys_argv E !! 1 = Some "getlatest") then
    a ← lift (Py.item activereleases 0);
    print a;;
    lift (Raise (SystemExit (ExitCode 0)))
  else
    lift (check_repository E);;
    lift (check_tags E activereleases release_series);;
    build E activereleases devbranch ltsseries release_series.

(** * Vocabulary of the properties *)

(** ** The registry *)

Definition codename_of (r : Release) : string := Py.lower (release_codename r).
Definition is_dev (r : Release) : bool := bool_decide (status r = "Active Development").
Definition is_current (r : Release) : bool := bool_decide (series r = "current").

(** A registry as the script expects it. *)
Definition registry_example : list Release :=
  [ {| release_codename := "Wrynose"; series_version := "6.0";
       status := "Active Development"; series := "current" |};
    {| release_codename := "Whinlatter"; series_version := "5.3";
       status := "Support for 7 months (until May 2026)"; series := "current" |};
    {| release_codename := "Scarthgap"; series_version := "5.0";
       status := "Long Term Support (LTS until April 2028)"; series := "current" |};
    {| release_codename := "Nanbield"; series_version := "4.3";
       status := "EOL"; series := "previous" |} ].

(** A registry whose entry in active development is not flagged current. *)
Definition registry_dev_not_current : list Release :=
  [ {| release_codename := "Wrynose"; series_version := "6.0";
       status := "Active Development"; series := "development" |};
    {| release_codename := "Whinlatter"; series_version := "5.3";
       status := "Support for 7 months (until May 2026)"; series := "current" |} ].

Definition ex_series : OD.t :=
  [("wrynose", "6.0"); ("whinlatter", "5.3"); ("walnascar", "5.2"); ("scarthgap", "5.0")].

(** ** The replacement table *)

(** The table of lines 221-232, before POKYVERSION is added. *)
Definition base_replacements (distro latesttag seriesversion ourseries version
    bitbakeversion minus_one lts0 : string) : gmap string string :=
  <["BITBAKE_SERIES" := bitbakeversion]>
  (<["DOCCONF_VERSION" := version]>
  (<["YOCTO_DOC_VERSION" := version]>
  (<["DISTRO_NAME_NO_CAP_LTS" := lts0]>
  (<["DISTRO_NAME_NO_CAP_MINUS_ONE" := minus_one]>
  (<["DISTRO_NAME" := Py.capitalize ourseries]>
  (<["DISTRO_NAME_NO_CAP" := ourseries]>
  (<["DISTRO_RELEASE_SERIES" := seriesversion]>
  (<["DISTRO_LATEST_TAG" := latesttag]>
  (<["DISTRO" := distro]> ∅))))))))).

(** ** The best-guess branch *)

(** The ahead-count of a candidate: the number of lines [git log] prints for
    [HEAD..origin/<candidate>], when the command succeeds. *)
Definition ahead (E : Env) (b : string) : option nat :=
  let result := git E ["log"; "--format=oneline"; "HEAD..origin/" +:+ b] in
  if decide (returncode result = 0%Z) then Some (Py.count_char LF (stdout result)) else None.

(** The state of the loop after the candidates [seen]: nothing chosen and no
    count so far, or a choice with its count, smaller than the counts before
    it and not larger than the counts after it. *)
Definition guess_inv (E : Env) (seen : list string) (st : option string * nat) : Prop :=
  match st.1 with
  | None => Forall (λ c, ahead E c = None) seen
  | Some b =>
      b ≠ "" ∧ ahead E b = Some st.2
      ∧ ∃ l1 l2, seen = l1 ++ b :: l2
          ∧ Forall (λ c, ∀ m, ahead E c = Some m → st.2 < m) l1
          ∧ Forall (λ c, ∀ m, ahead E c = Some m → st.2 ≤ m) l2
  end.

(** The registry [seriesA, seriesB] with ahead-counts 3, 3 and 5 for trunk. *)
Definition lines (n : nat) : string := Py.repeat_char LF n.

Definition git_counts (args : list string) : completed :=
  if decide (args = ["log"; "--format=oneline"; "HEAD..origin/seriesA"])
  then {| returncode := 0; stdout := lines 3 |}
  else if decide (args = ["log"; "--format=oneline"; "HEAD..origin/seriesB"])
  then {| returncode := 0; stdout := lines 3 |}
  else if decide (args = ["log"; "--format=oneline"; "HEAD..origin/master"])
  then {| returncode := 0; stdout := lines 5 |}
  else {| returncode := 128; stdout := "" |}.

Definition env_counts : Env :=
  {| sys_argv := ["set_versions.py"]; releases_json := []; git := git_counts |}.

Definition series_AB : OD.t := [("seriesA", "5.3"); ("seriesB", "5.2")].

(** A repository where a candidate with the empty name gets a count. *)
Definition git_empty_name (args : list string) : completed :=
  if decide (args = ["log"; "--format=oneline"; "HEAD..origin/"])
  then {| returncode := 0; stdout := lines 1 |}
  else {| returncode := 0; stdout := lines 7 |}.

(** ** The distribution version *)

(** A repository where [git describe] prints [out]. *)
Definition git_describe (out : string) (args : list string) : completed :=
  if decide (args = ["describe"; "--abbrev=0"; "--tags"; "--match"; "yocto-*"])
  then {| returncode := 0; stdout := out |}
  else {| returncode := 128; stdout := "" |}.

Definition env_describe (out : string) : Env :=
  {| sys_argv := ["set_versions.py"]; releases_json := []; git := git_describe out |}.

(** ** Rendering poky.yaml *)

(** The text before the first occurrence of a character. *)
Fixpoint before_first (c : ascii) (s : string) : string :=
  match s with
  | EmptyString => EmptyString
  | String d s' => if decide (d = c) then EmptyString else String d (before_first c s')
  end.

(** The line written for a key of the table. *)
Definition rewritten (k v : string) : string :=
  k +:+ " : " +:+ dquote +:+ v +:+ dquote +:+ nl.

(** A line of the template that already reads as its rendering. *)
Definition line_already_rendered : string :=
  "DISTRO : " +:+ dquote +:+ "5.3" +:+ dquote +:+ nl.

(** ** Writing files *)

Definition concat_str (l : list string) : string := foldr String.append "" l.

(** [only_writes path s m]: on a file that is being written, [m] appends
    [s] and does nothing else. *)
Definition only_writes (path s : string) (m : M unit) : Prop :=
  ∀ a w, m (append_to path a w) = (Ok (), append_to path (a +:+ s) w).

(** ** The index of manuals *)

(** The tags a section lists, in the order of the tag list. *)
Definition listed (seriesversion : string) (tags : list string) : list string :=
  List.filter (tag_matches seriesversion) tags.

(** The four lines at the head of a section. *)
Definition title_block (seriesversion name : string) : string :=
  let title := "Release Series " +:+ seriesversion +:+ " (" +:+ name +:+ ")" in
  Py.repeat_char "*" (String.length title) +:+ nl +:+ title +:+ nl
  +:+ Py.repeat_char "*" (String.length title) +:+ nl +:+ nl.

(** The text of a section: title, maybe a fixed line, bullets, empty line. *)
Definition section_text (seriesversion name extra : string) (tags : list string) : string :=
  title_block seriesversion name +:+ extra
  +:+ concat_str (map bullet (listed seriesversion tags)) +:+ nl.

Definition supported_text (rs : OD.t) (tags : list string) (name : string) : string :=
  match OD.get name rs with
  | Some sv => section_text sv name "" tags
  | None => ""
  end.

Definition outdated_text (rs : OD.t) (tags : list string) (devbranch : string)
    (activereleases : list string) (name : string) : string :=
  if bool_decide (name = devbranch) || Py.list_in name activereleases then ""
  else if bool_decide (name = "jethro-pre") then ""
  else match OD.get name rs with
       | Some sv =>
           section_text sv name (if bool_decide (name = "jethro") then bullet "1.9" else "")
             tags
       | None => ""
       end.

(** The tags of line 308, without their prefix. *)
Definition all_tags (E : Env) : list string :=
  map (Py.drop 6)
    (Py.split_ws (stdout (git E ["tag"; "--list"; "--sort=version:refname"; "yocto-*"]))).

Definition releases_rst_text (rs : OD.t) (tags : list string) (devbranch : string)
    (activereleases : list string) : string :=
  "===========================" +:+ nl
  +:+ " Supported Release Manuals" +:+ nl
  +:+ "===========================" +:+ nl
  +:+ nl
  +:+ concat_str (map (supported_text rs tags) activereleases)
  +:+ "==========================" +:+ nl
  +:+ " Outdated Release Manuals" +:+ nl
  +:+ "==========================" +:+ nl
  +:+ nl
  +:+ concat_str (map (outdated_text rs tags devbranch activereleases) (OD.keys rs)).

(** ** Fatal exits *)

(** Does not end in [sys.exit]. *)
Definition no_exit_r {A} (r : result A) : Prop :=
  match r with
  | Raise (SystemExit _) => False
  | _ => True
  end.

Definition no_exit {A} (m : M A) : Prop := ∀ w, no_exit_r (m w).1.

(** The tag [yocto-<version>] of the first active release cannot be shown. *)
Definition first_tag_missing (E : Env) (activereleases : list string)
    (release_series : OD.t) : Prop :=
  ∃ a v, activereleases !! 0 = Some a ∧ OD.get a release_series = Some v
         ∧ returncode (git E ["show"; "yocto-" +:+ v]) ≠ 0%Z.

(** Outside a repository every Git command fails. *)
Definition git_fails (args : list string) : completed :=
  {| returncode := 128; stdout := "" |}.

Definition env_no_repository : Env :=
  {| sys_argv := ["set_versions.py"]; releases_json := registry_example;
     git := git_fails |}.

(** A clone without tags. *)
Definition git_no_tags (args : list string) : completed :=
  if decide (args = ["rev-parse"; "--is-inside-work-tree"])
  then {| returncode := 0; stdout := "true" +:+ nl |}
  else {| returncode := 128; stdout := "" |}.

Definition env_no_tags : Env :=
  {| sys_argv := ["set_versions.py"]; releases_json := registry_example;
     git := git_no_tags |}.

(** A working directory with the two templates. *)
Definition world_templates : world :=
  {| files :=
       <["poky.yaml.in" :=
           "DISTRO : " +:+ dquote +:+ "0" +:+ dquote +:+ nl
           +:+ "DISTRO_NAME_NO_CAP_LTS : " +:+ dquote +:+ "x" +:+ dquote +:+ nl
           +:+ "  OTHER: kept" +:+ nl]>
       (<["sphinx-static/switchers.js.in" := "VERSIONS_PLACEHOLDER" +:+ nl]> ∅);
     printed := [] |}.

(** A clone with its tags, at the tip of the branch scarthgap. *)
Definition git_scarthgap_tip (args : list string) : completed :=
  if decide (args = ["tag"; "--points-at"; "HEAD"])
  then {| returncode := 0; stdout := "" |}
  else if decide (args = ["branch"; "--show-current"])
  then {| returncode := 0; stdout := "scarthgap" +:+ nl |}
  else if decide (args = ["rev-parse"; "--short"; "HEAD"])
  then {| returncode := 0; stdout := "4d2acc043" +:+ nl |}
  else if decide (args = ["rev-parse"; "--short"; "scarthgap"])
  then {| returncode := 0; stdout := "4d2acc043" +:+ nl |}
  else if decide (args = ["describe"; "--abbrev=0"; "--tags"; "--match"; "yocto-*"])
  then {| returncode := 0; stdout := "yocto-5.0.3" +:+ nl |}
  else {| returncode := 0; stdout := "" |}.

Definition env_scarthgap_tip : Env :=
  {| sys_argv := ["set_versions.py"]; releases_json := registry_example;
     git := git_scarthgap_tip |}.

(** ** The latest tag of a branch *)


(** What the two [replace] calls of line 263 make of a tag. *)
Definition point_text (sv v : string) : string :=
  Py.replace ("yocto-" +:+ sv) "0" (Py.replace ("yocto-" +:+ sv +:+ ".") "" v).



(** The tags that [git tag --list] prints for the series. *)
Definition tag_list (E : Env) (sv : string) : list string :=
  Py.split_ws (stdout (git E ["tag"; "--list"; "yocto-" +:+ sv +:+ "*"])).



(** A repository where [git tag --list pattern] prints [out]. *)
Definition git_tags (pattern out : string) (args : list string) : completed :=
  if decide (args = ["tag"; "--list"; pattern])
  then {| returncode := 0; stdout := out |}
  else {| returncode := 0; stdout := "" |}.

Definition env_tags (pattern out : string) : Env :=
  {| sys_argv := ["set_versions.py"]; releases_json := [];
     git := git_tags pattern out |}.

Definition tags_5_3 : string :=
  "yocto-5.3" +:+ nl +:+ "yocto-5.3.1" +:+ nl +:+ "yocto-5.3.10" +:+ nl
  +:+ "yocto-5.3.2" +:+ nl.

(** ** Further vocabulary: the registry *)

Definition is_lts (r : Release) : bool := Py.contains "LTS until" (status r).

(** The registry as pairs of codename and series version. *)
Definition registry_pairs (releases : list Release) : list (string * string) :=
  map (λ r, (codename_of r, series_version r)) releases.

(** The last entry of the registry with a codename. *)
Definition last_with (k : string) (releases : list Release) : option Release :=
  last (List.filter (λ r, bool_decide (codename_of r = k)) releases).

(** ** Further vocabulary: version resolution *)

(** The tags at HEAD, as the script splits them. *)
Definition head_tags (E : Env) : list string :=
  Py.split_ws (stdout (git E ["tag"; "--points-at"; "HEAD"])).

Definition not_yocto (t : string) : Prop := Py.startswith "yocto-" t = false.

(** What holds of a resolved version, whichever way it was found. *)
Definition resolved_inv (rs : OD.t) (devbranch : string) (r : resolved) : Prop :=
  (is_branch_tip r = true →
   ∃ s sv, ourseries r = Some s ∧ OD.get s rs = Some sv ∧ ourversion r = sv +:+ "-tip")
  ∧ (∀ s, ourseries r = Some s →
       (s ∈ OD.keys rs ∧ is_Some (bitbake_mapping !! s)
        ∧ bitbakeversion r = bitbake_mapping !! s)
       ∨ (s = devbranch ∧ ourversion r ∈ ["dev"; "next"]
          ∧ bitbakeversion r = Some (ourversion r) ∧ is_branch_tip r = false))
  ∧ (ourseries r = None → bitbakeversion r = None ∧ is_branch_tip r = false).

(** A checkout on the tag yocto-5.3.1 and on no branch. *)
Definition git_on_tag (args : list string) : completed :=
  if decide (args = ["tag"; "--points-at"; "HEAD"])
  then {| returncode := 0; stdout := "v1" +:+ nl +:+ "yocto-5.3.1" +:+ nl |}
  else {| returncode := 0; stdout := "" |}.

Definition env_on_tag : Env :=
  {| sys_argv := ["set_versions.py"]; releases_json := registry_example;
     git := git_on_tag |}.

(** A checkout on a tag of a series that the registry does not have. *)
Definition git_on_unknown_tag (args : list string) : completed :=
  if decide (args = ["tag"; "--points-at"; "HEAD"])
  then {| returncode := 0; stdout := "yocto-9.9" +:+ nl |}
  else {| returncode := 0; stdout := "" |}.

Definition env_on_unknown_tag : Env :=
  {| sys_argv := ["set_versions.py"]; releases_json := registry_example;
     git := git_on_unknown_tag |}.

(** ** Further vocabulary: the replacement table and the templates *)

(** The placeholder names of lines 221-240. *)
Definition placeholder_names : list string :=
  ["DISTRO"; "DISTRO_LATEST_TAG"; "DISTRO_RELEASE_SERIES"; "DISTRO_NAME_NO_CAP";
   "DISTRO_NAME"; "DISTRO_NAME_NO_CAP_MINUS_ONE"; "DISTRO_NAME_NO_CAP_LTS";
   "YOCTO_DOC_VERSION"; "DOCCONF_VERSION"; "BITBAKE_SERIES"; "POKYVERSION"].

(** The key of a line of poky.yaml.in. *)
Definition line_key (line : string) : string := Py.strip (before_first ":" line).


(** ** Further vocabulary: the files of a run *)

(** The three files the script writes. *)
Definition output_paths : list string := ["poky.yaml"; switchers_js; releases_rst].

(** [m] leaves the files outside [paths] as they are. *)
Definition touches_only {A} (paths : list string) (m : M A) : Prop :=
  ∀ w p, p ∉ paths → files (m w).2 !! p = files w !! p.

(** [m] removes no file. *)
Definition keeps_files {A} (m : M A) : Prop :=
  ∀ w p, is_Some (files w !! p) → is_Some (files (m w).2 !! p).

(** A repository with an unexpected tag of the series 5.3. *)
Definition tags_with_candidate : string :=
  "yocto-5.3" +:+ nl +:+ "yocto-5.3.1" +:+ nl +:+ "yocto-5.3_rc1" +:+ nl.

(** ** Further vocabulary: the current branch *)

(** The name of the current branch, empty on a detached HEAD. *)
Definition current_branch (E : Env) : string :=
  Py.strip (stdout (git E ["branch"; "--show-current"])).

(** A checkout on the branch whinlatter, behind its tip. *)
Definition git_behind_tip (args : list string) : completed :=
  if decide (args = ["branch"; "--show-current"])
  then {| returncode := 0; stdout := "whinlatter" +:+ nl |}
  else if decide (args = ["rev-parse"; "--short"; "HEAD"])
  then {| returncode := 0; stdout := "4d2acc043" +:+ nl |}
  else if decide (args = ["rev-parse"; "--short"; "whinlatter"])
  then {| returncode := 0; stdout := "77aa11bb2" +:+ nl |}
  else {| returncode := 0; stdout := "" |}.

Definition env_behind_tip : Env :=
  {| sys_argv := ["set_versions.py"]; releases_json := registry_example;
     git := git_behind_tip |}.

(** * Properties *)

(** ** Strings *)

Section strings.

Implicit Types (s t u : string) (c : ascii).

Lemma append_cons c s t : String c s +:+ t = String c (s +:+ t).
Proof. reflexivity. Qed.


Lemma append_nil_r s : s +:+ "" = s.
Proof. induction s as [|c s IH]; [done|]. by rewrite append_cons, IH. Qed.

Lemma append_assoc s t u : (s +:+ t) +:+ u = s +:+ (t +:+ u).
Proof. induction s as [|c s IH]; [done|]. by rewrite !append_cons, IH. Qed.


(** [startswith] in words: the string is the prefix followed by something. *)
Lemma startswith_spec p s : Py.startswith p s = true ↔ ∃ r, s = p +:+ r.
Proof.
  unfold Py.startswith. revert s.
  induction p as [|c p IH]; intros s.
  - destruct s; simpl; split; eauto.
  - destruct s as [|d s]; simpl.
    + split; [done|]. intros [r Hr]. by rewrite append_cons in Hr.
    + destruct (ascii_dec c d) as [->|Hne].
      * rewrite IH. split; intros [r Hr]; exists r.
        -- by rewrite append_cons, Hr.
        -- rewrite append_cons in Hr. by simplify_eq.
      * split; [done|]. intros [r Hr]. rewrite append_cons in Hr. by simplify_eq.
Qed.

End strings.

(** ** The registry loader *)

Section loader.

Lemma loop_activereleases releases st :
  st_activereleases (fold_left get_releases_step releases st)
  = st_activereleases st ++ map codename_of (List.filter is_current releases).
Proof.
  revert st. induction releases as [|r rs IH]; intros st; simpl.
  - by rewrite app_nil_r.
  - rewrite IH. unfold is_current at 2. simpl.
    destruct (decide (series r = "current")) as [Hc|Hc].
    + rewrite bool_decide_eq_true_2 by done. simpl. by rewrite <- app_assoc.
    + by rewrite bool_decide_eq_false_2 by done.
Qed.

Lemma loop_devbranch_none releases st :
  Forall (λ r, is_dev r = false) releases →
  st_devbranch (fold_left get_releases_step releases st) = st_devbranch st.
Proof.
  revert st. induction releases as [|r rs IH]; intros st Hall; [done|].
  inversion Hall as [|?? Hr Hrs]; subst. simpl. rewrite IH by done. simpl.
  unfold is_dev in Hr. apply bool_decide_eq_false in Hr.
  by destruct (decide (status r = "Active Development")).
Qed.

(** The dev branch is the codename of the last entry in active development. *)
Lemma loop_devbranch before d after st :
  is_dev d = true → Forall (λ r, is_dev r = false) after →
  st_devbranch (fold_left get_releases_step (before ++ d :: after) st) = codename_of d.
Proof.
  intros Hd Hafter. rewrite fold_left_app. simpl.
  rewrite loop_devbranch_none by done. simpl.
  unfold is_dev in Hd. apply bool_decide_eq_true in Hd.
  by destruct (decide (status d = "Active Development")).
Qed.

(** [l.remove(x)] takes out the first occurrence. *)
Lemma remove_first x l1 l2 :
  x ∉ l1 → Py.remove x (l1 ++ x :: l2) = Ok (l1 ++ l2).
Proof.
  induction l1 as [|y l1 IH]; intros Hx; simpl.
  - by destruct (decide (x = x)).
  - apply not_elem_of_cons in Hx as [Hne Hx].
    destruct (decide (y = x)); [congruence|]. by rewrite IH.
Qed.

Lemma remove_absent x l : x ∉ l → Py.remove x l = Raise ValueError.
Proof.
  induction l as [|y l IH]; intros Hx; [done|]. simpl.
  apply not_elem_of_cons in Hx as [Hne Hx].
  destruct (decide (y = x)); [congruence|]. by rewrite IH.
Qed.

(** When the dev branch is not among the current codenames, the removal
    fails. *)
Lemma get_releases_raises releases :
  st_devbranch (get_releases_loop releases) ∉ st_activereleases (get_releases_loop releases) →
  get_releases releases = Raise ValueError.
Proof. intros Habsent. unfold get_releases. by rewrite remove_absent. Qed.

(** On a registry with distinct codenames whose one entry in active
    development is flagged current, the active releases are the codenames of
    the other current entries, in registry order. *)
Lemma get_releases_active before d after :
  is_dev d = true → is_current d = true →
  Forall (λ r, is_dev r = false) (before ++ after) →
  NoDup (map codename_of (before ++ d :: after)) →
  ∃ lts rs,
    (get_releases (before ++ d :: after)
     = Ok (map codename_of (List.filter is_current (before ++ after)),
           codename_of d, lts, rs))
    ∧ (codename_of d ∉ map codename_of (List.filter is_current (before ++ after)))
    ∧ NoDup (map codename_of (List.filter is_current (before ++ after))).
Proof.
  intros Hd Hc Hothers Hnodup.
  apply Forall_app in Hothers as [Hb Ha].
  rewrite map_app in Hnodup. simpl in Hnodup.
  apply NoDup_app in Hnodup as (Hnb & Hdisj & Hnda).
  apply NoDup_cons in Hnda as [Hda Hna].
  assert (Hsub : ∀ l, map codename_of (List.filter is_current l) ⊆ map codename_of l).
  { intros l x. rewrite !list_elem_of_In, !in_map_iff.
    intros (r & <- & Hr). apply filter_In in Hr as [Hr _]. eauto. }
  assert (Hdb : codename_of d ∉ map codename_of (List.filter is_current before)).
  { intros Hin. apply Hsub in Hin. eapply Hdisj; [exact Hin|]. left. }
  assert (Hdafter : codename_of d ∉ map codename_of (List.filter is_current after)).
  { intros Hin. apply Hsub in Hin. done. }
  assert (Hnf : ∀ l, NoDup (map codename_of l) →
                     NoDup (map codename_of (List.filter is_current l))).
  { induction l as [|r l IH]; simpl; intros Hl; [constructor|].
    apply NoDup_cons in Hl as [Hr Hl].
    destruct (is_current r); simpl; [|by apply IH].
    apply NoDup_cons. split; [|by apply IH]. intros Hin. by apply Hsub in Hin. }
  eexists _, _. split; [|split].
  - unfold get_releases, get_releases_loop.
    rewrite loop_devbranch by done.
    rewrite loop_activereleases. simpl.
    rewrite !List.filter_app. simpl. rewrite Hc. rewrite !map_app. simpl.
    rewrite remove_first by done. reflexivity.
  - rewrite List.filter_app, map_app. intros [?|?]%elem_of_app; done.
  - rewrite List.filter_app, map_app. apply NoDup_app. split; [by apply Hnf|].
    split; [|by apply Hnf].
    intros x Hx Hx'. apply Hsub in Hx. apply Hsub in Hx'.
    eapply Hdisj; [exact Hx|]. by right.
Qed.

(** C1: on a registry with exactly one entry in active development,
    [get_releases] is to return the current codenames without the one in
    active development, also when that entry is not flagged current. On
    such a registry the unconditional [activereleases.remove(devbranch)]
    raises [ValueError] instead, and no list is returned. *)
Theorem get_releases_dev_not_current :
  List.length (List.filter is_dev registry_dev_not_current) = 1
  ∧ get_releases registry_dev_not_current = Raise ValueError.
Proof. split; reflexivity. Qed.

End loader.

(** ** Derived fields and the replacement table *)

Section derived.

Implicit Types (rs : OD.t) (t : gmap string string).

Lemma index_first (x : string) (l : list string) i :
  l !! i = Some x → (∀ j, j < i → l !! j ≠ Some x) → Py.index x l = Ok i.
Proof.
  revert i. induction l as [|y l IH]; intros i Hi Hfirst; [done|]. simpl.
  destruct (decide (y = x)) as [->|Hne].
  - destruct i as [|i]; [done|]. exfalso. apply (Hfirst 0); [lia|done].
  - destruct i as [|i]; [simpl in Hi; congruence|]. simpl in Hi.
    rewrite (IH i); [done|done|].
    intros j Hj. apply (Hfirst (S j)). lia.
Qed.

Lemma index_NoDup (x : string) (l : list string) i :
  NoDup l → l !! i = Some x → Py.index x l = Ok i.
Proof.
  intros Hnd Hi. apply index_first; [done|].
  intros j Hj Hjx. pose proof (NoDup_lookup l i j x Hnd Hi Hjx). lia.
Qed.

Lemma index_absent (x : string) (l : list string) : x ∉ l → Py.index x l = Raise ValueError.
Proof.
  induction l as [|y l IH]; intros Hx; [done|]. simpl.
  apply not_elem_of_cons in Hx as [Hne Hx].
  destruct (decide (y = x)); [congruence|]. by rewrite IH.
Qed.

(** [(l or [""])[0]] *)
Lemma or_list_item0 (l : list string) :
  Py.item (or_list l [""]) 0 = Ok (default "" (l !! 0)).
Proof. by destruct l. Qed.

(** The keys of a dictionary filled by assignment are distinct. *)
Lemma keys_set k v rs :
  OD.keys (OD.set k v rs) = if bool_decide (k ∈ OD.keys rs) then OD.keys rs else OD.keys rs ++ [k].
Proof.
  induction rs as [|[k' v'] rs IH]; [done|]. simpl.
  destruct (decide (k' = k)) as [->|Hne].
  - rewrite bool_decide_eq_true_2 by left. done.
  - simpl. unfold OD.keys in *. rewrite IH.
    destruct (decide (k ∈ map fst rs)) as [Hin|Hin].
    + rewrite !bool_decide_eq_true_2; [done|by right|done].
    + rewrite !bool_decide_eq_false_2; [done| |done].
      intros [?|?]%elem_of_cons; congruence.
Qed.

Lemma keys_set_NoDup k v rs : NoDup (OD.keys rs) → NoDup (OD.keys (OD.set k v rs)).
Proof.
  intros Hnd. rewrite keys_set. case_bool_decide; [done|].
  apply NoDup_app. split; [done|]. split; [|apply NoDup_singleton].
  intros x Hx ->%list_elem_of_singleton. done.
Qed.

Lemma loop_keys_NoDup releases st :
  NoDup (OD.keys (st_release_series st)) →
  NoDup (OD.keys (st_release_series (fold_left get_releases_step releases st))).
Proof.
  revert st. induction releases as [|r l IH]; intros st Hst; [done|].
  simpl. apply IH. simpl. by apply keys_set_NoDup.
Qed.

Lemma get_releases_keys_NoDup releases ar dev lts rs :
  get_releases releases = Ok (ar, dev, lts, rs) → NoDup (OD.keys rs).
Proof.
  unfold get_releases. intros H.
  destruct (Py.remove _ _); simpl in H; [|done]. simplify_eq.
  apply loop_keys_NoDup. constructor.
Qed.

Lemma make_replacements_inv rs d lt o v b prev lts t :
  make_replacements rs d lt o v b prev lts = Ok t →
  ∃ lt' sv m l0,
    lt = Some lt' ∧ OD.get o rs = Some sv ∧ prev !! 0 = Some m ∧ getitem0 lts = Ok l0
    ∧ add_pokyversion sv v (base_replacements d lt' sv o v b m l0) = Ok t.
Proof.
  unfold make_replacements, bound, OD.getitem, Py.item. intros H.
  destruct lt as [lt'|]; [|done]. simpl in H.
  destruct (OD.get o rs) as [sv|]; [|done]. simpl in H.
  destruct (prev !! 0) as [m|]; [|done]. simpl in H.
  destruct (getitem0 lts) as [l0|]; [|done]. simpl in H.
  by exists lt', sv, m, l0.
Qed.


Lemma add_pokyversion_other sv v t0 t k :
  add_pokyversion sv v t0 = Ok t → k ≠ "POKYVERSION" → t !! k = t0 !! k.
Proof.
  unfold add_pokyversion. intros H Hk.
  destruct (poky_mapping !! sv) as [p|]; [|by simplify_eq].
  destruct (decide (v ≠ sv)).
  - destruct (Py.item (Py.rsplit1 "." v) 1); simpl in H; [|done].
    simplify_eq. by rewrite lookup_insert_ne.
  - simpl in H. simplify_eq. by rewrite lookup_insert_ne.
Qed.

Lemma base_replacements_minus_one d lt sv o v b m l0 :
  base_replacements d lt sv o v b m l0 !! "DISTRO_NAME_NO_CAP_MINUS_ONE" = Some m.
Proof. unfold base_replacements. rewrite !lookup_insert_ne by done. by rewrite lookup_insert_eq. Qed.

Lemma base_replacements_lts d lt sv o v b m l0 :
  base_replacements d lt sv o v b m l0 !! "DISTRO_NAME_NO_CAP_LTS" = Some l0.
Proof. unfold base_replacements. rewrite !lookup_insert_ne by done. by rewrite lookup_insert_eq. Qed.


(** C7: the value of DISTRO_NAME_NO_CAP_MINUS_ONE is the codename at the
    position after the resolved series in the order of the registry, and the
    empty string when the resolved series is the last one. *)
Theorem previous_series_is_next_in_registry rs o i :
  NoDup (OD.keys rs) → OD.keys rs !! i = Some o →
  ∃ previous,
    previousseries rs o = Ok previous
    ∧ Py.item previous 0 = Ok (default "" (OD.keys rs !! S i))
    ∧ ∀ d lt v b lts t,
        make_replacements rs d lt o v b previous lts = Ok t →
        t !! "DISTRO_NAME_NO_CAP_MINUS_ONE" = Some (default "" (OD.keys rs !! S i)).
Proof.
  intros Hnd Hi. unfold previousseries. rewrite (index_NoDup _ _ i) by done.
  eexists. split; [reflexivity|].
  assert (Hitem : Py.item (or_list (List.skipn (i + 1) (OD.keys rs)) [""]) 0
                  = Ok (default "" (OD.keys rs !! S i))).
  { rewrite or_list_item0. f_equal. f_equal.
    change (List.skipn (i + 1) (OD.keys rs)) with (drop (i + 1) (OD.keys rs)).
    rewrite lookup_drop. f_equal. lia. }
  split; [done|].
  intros d lt v b lts t Ht.
  apply make_replacements_inv in Ht as (lt' & sv & m & l0 & -> & Hsv & Hm & Hl & Ht).
  rewrite (add_pokyversion_other _ _ _ _ _ Ht) by done.
  rewrite base_replacements_minus_one.
  unfold Py.item in Hitem. rewrite Hm in Hitem. simpl in Hitem. congruence.
Qed.

Lemma previous_series_is_next_in_registry_witness :
  ∃ previous,
    previousseries ex_series "whinlatter" = Ok previous
    ∧ Py.item previous 0 = Ok "walnascar"
    ∧ ∀ d lt v b lts t,
        make_replacements ex_series d lt "whinlatter" v b previous lts = Ok t →
        t !! "DISTRO_NAME_NO_CAP_MINUS_ONE" = Some "walnascar".
Proof.
  apply (previous_series_is_next_in_registry ex_series "whinlatter" 1).
  - compute_done.
  - reflexivity.
Defined.

(** When the resolved series is the last of the registry the value is empty. *)
Example previous_series_of_last :
  (previousseries ex_series "scarthgap" ≫= λ p, Py.item p 0) = Ok "".
Proof. reflexivity. Qed.

(** The value of DISTRO_NAME_NO_CAP_LTS when some later series is an LTS:
    the first of them. *)
Lemma lastlts_first previous ltsseries k rest :
  List.filter (λ k, Py.list_in k ltsseries) previous = k :: rest →
  getitem0 (lastlts previous ltsseries) = Ok k.
Proof. intros H. unfold lastlts. by rewrite H. Qed.

(** C2: when no series after the resolved one is an LTS, the value of
    DISTRO_NAME_NO_CAP_LTS is to be the legacy codename [dunfell]. The script
    falls back to the string ["dunfell"], not to a list holding it, and then
    takes element 0: the value is the one-letter string ["d"]. *)
Theorem lastlts_fallback_is_first_letter rs d lt o v b previous ltsseries t :
  Forall (λ k, k ∉ ltsseries) previous →
  make_replacements rs d lt o v b previous (lastlts previous ltsseries) = Ok t →
  getitem0 (lastlts previous ltsseries) = Ok "d"
  ∧ t !! "DISTRO_NAME_NO_CAP_LTS" = Some "d"
  ∧ t !! "DISTRO_NAME_NO_CAP_LTS" ≠ Some "dunfell".
Proof.
  intros Hnone Ht.
  assert (Hl : getitem0 (lastlts previous ltsseries) = Ok "d").
  { unfold lastlts.
    replace (List.filter (λ k, Py.list_in k ltsseries) previous) with (@nil string); [done|].
    symmetry. clear Ht. induction Hnone as [|k l Hk _ IH]; [done|]. simpl.
    unfold Py.list_in at 1. by rewrite bool_decide_eq_false_2. }
  apply make_replacements_inv in Ht as (lt' & sv & m & l0 & -> & Hsv & Hm & Hl0 & Ht).
  rewrite (add_pokyversion_other _ _ _ _ _ Ht) by done.
  rewrite base_replacements_lts.
  split; [done|]. rewrite Hl in Hl0. simplify_eq. done.
Qed.

Lemma lastlts_fallback_is_first_letter_witness :
  getitem0 (lastlts ["walnascar"] ["scarthgap"]) = Ok "d"
  ∧ (base_replacements "5.3" "5.3" "5.3" "whinlatter" "5.3" "2.16" "walnascar" "d")
      !! "DISTRO_NAME_NO_CAP_LTS" = Some "d"
  ∧ (base_replacements "5.3" "5.3" "5.3" "whinlatter" "5.3" "2.16" "walnascar" "d")
      !! "DISTRO_NAME_NO_CAP_LTS" ≠ Some "dunfell".
Proof.
  apply (lastlts_fallback_is_first_letter
           [("whinlatter", "5.3"); ("walnascar", "5.2")]
           "5.3" (Some "5.3") "whinlatter" "5.3" "2.16" ["walnascar"] ["scarthgap"]).
  - compute_done.
  - reflexivity.
Defined.

(** The text after the last occurrence of a separator. *)
Lemma rcut_none c s : Py.count_char c s = 0 → Py.rcut c s = None.
Proof.
  induction s as [|d s IH]; [done|]. simpl.
  destruct (decide (d = c)); [done|]. intros H. by rewrite IH.
Qed.




Lemma rsplit1_no_dot v :
  Py.count_char "." v = 0 → Py.item (Py.rsplit1 "." v) 1 = Raise IndexError.
Proof. intros Hv. unfold Py.rsplit1. by rewrite rcut_none. Qed.





(** On tag yocto-3.1.5 the value is 23.0.5; at the tip of the branch, where
    the resolved version is 3.1-tip, the text after the last dot is [1-tip]. *)
Example pokyversion_of_tag :
  (add_pokyversion "3.1" "3.1.5" ∅ ≫= λ t, or_raise KeyError (t !! "POKYVERSION"))
  = Ok "23.0.5".
Proof. reflexivity. Qed.

Example pokyversion_of_tip :
  (add_pokyversion "3.1" "3.1-tip" ∅ ≫= λ t, or_raise KeyError (t !! "POKYVERSION"))
  = Ok "23.0.1-tip".
Proof. reflexivity. Qed.

(** Building trunk while its series is one of the mapped ones fails: [dev]
    has no dot. *)
Example pokyversion_of_dev : add_pokyversion "3.4" "dev" ∅ = Raise IndexError.
Proof. reflexivity. Qed.

End derived.

(** ** The best-guess branch *)

Section guess.

Context (E : Env).

Lemma guess_step_inv seen st b :
  ahead E "" = None ∨ b ≠ "" →
  guess_inv E seen st → guess_inv E (seen ++ [b]) (guess_step E st b).
Proof.
  intros Hb Hinv. destruct st as [pb cnt]. unfold guess_step.
  pose proof (eq_refl (ahead E b)) as Hab. unfold ahead at 2 in Hab.
  destruct (decide (returncode _ = 0%Z)) as [Hrc|Hrc].
  - set (count := Py.count_char LF _) in *.
    assert (Hne : b ≠ "") by (destruct Hb as [Hb|Hb]; [intros ->; congruence|done]).
    unfold guess_inv in Hinv. simpl in Hinv.
    destruct pb as [p|].
    + destruct Hinv as (Hp & Hap & l1 & l2 & -> & H1 & H2).
      assert (truthy (Some p) = true) as -> by (by destruct p).
      simpl. destruct (count <? cnt) eqn:Hlt.
      * apply Nat.ltb_lt in Hlt. unfold guess_inv. simpl.
        split; [done|]. split; [done|].
        exists (l1 ++ p :: l2), []. split; [done|]. split; [|constructor].
        apply Forall_app. split; [|constructor].
        -- eapply Forall_impl; [exact H1|]. intros c Hc m Hm. specialize (Hc m Hm). lia.
        -- intros m Hm. rewrite Hap in Hm. simplify_eq. lia.
        -- eapply Forall_impl; [exact H2|]. intros c Hc m Hm. specialize (Hc m Hm). lia.
      * apply Nat.ltb_ge in Hlt. unfold guess_inv. simpl.
        split; [done|]. split; [done|].
        exists l1, (l2 ++ [b]). split; [by rewrite <- app_assoc|]. split; [done|].
        apply Forall_app. split; [done|]. constructor; [|constructor].
        intros m Hm. rewrite Hab in Hm. simplify_eq. done.
    + unfold guess_inv. simpl. split; [done|]. split; [done|].
      exists seen, []. split; [done|]. split; [|constructor].
      eapply Forall_impl; [exact Hinv|]. intros c Hc m Hm. congruence.
  - unfold guess_inv in *. simpl in *. destruct pb as [p|].
    + destruct Hinv as (Hp & Hap & l1 & l2 & -> & H1 & H2).
      split; [done|]. split; [done|].
      exists l1, (l2 ++ [b]). split; [by rewrite <- app_assoc|]. split; [done|].
      apply Forall_app. split; [done|]. constructor; [|constructor].
      intros m Hm. congruence.
    + apply Forall_app. split; [done|]. by constructor.
Qed.

Lemma guess_loop_inv seen st todo :
  ahead E "" = None ∨ "" ∉ todo →
  guess_inv E seen st → guess_inv E (seen ++ todo) (fold_left (guess_step E) todo st).
Proof.
  revert seen st. induction todo as [|b todo IH]; intros seen st Hempty Hinv.
  - by rewrite app_nil_r.
  - simpl. replace (seen ++ b :: todo) with ((seen ++ [b]) ++ todo)
      by (by rewrite <- app_assoc).
    apply IH.
    + destruct Hempty as [?|Hempty]; [by left|]. right.
      intros Hin. apply Hempty. by right.
    + apply guess_step_inv; [|done].
      destruct Hempty as [?|Hempty]; [by left|]. right.
      intros ->. apply Hempty. left.
Qed.

End guess.

(** C3: the guess is a candidate with minimal ahead-count, the first such in
    the order of the registry followed by trunk: every candidate before it
    has a strictly larger count and every candidate after it has a count at
    least as large. Candidates whose [git log] fails have no count and are
    passed over; with no count at all the guess is trunk. The candidate with
    the empty name, for which Git has no ref [origin/], has no count. For
    the counts 3, 3 and 5 of seriesA, seriesB and trunk the guess is
    seriesA. *)
Theorem guess_is_first_minimum :
  (∀ (E : Env) (release_series : OD.t),
     let candidates := OD.keys release_series ++ ["master"] in
     ("" ∈ OD.keys release_series → ahead E "" = None) →
     (Forall (λ c, ahead E c = None) candidates
      ∧ guess_branch E release_series = "master")
     ∨ (∃ l1 b l2 n,
          candidates = l1 ++ b :: l2
          ∧ guess_branch E release_series = b
          ∧ ahead E b = Some n
          ∧ Forall (λ c, ∀ m, ahead E c = Some m → n < m) l1
          ∧ Forall (λ c, ∀ m, ahead E c = Some m → n ≤ m) l2))
  ∧ guess_branch env_counts series_AB = "seriesA".
Proof.
  split; [|reflexivity].
  intros E rs candidates Hempty.
  assert (Hinv : guess_inv E candidates (guess_loop E candidates)).
  { apply (guess_loop_inv E [] (None, 0) candidates); [|constructor].
    destruct (decide ("" ∈ OD.keys rs)) as [Hin|Hin]; [left; auto|right].
    subst candidates. intros [?|Hm]%elem_of_app; [done|].
    by apply list_elem_of_singleton in Hm. }
  unfold guess_branch. fold candidates.
  destruct (guess_loop E candidates) as [pb cnt]. unfold guess_inv in Hinv.
  simpl in *. destruct pb as [b|].
  - right. destruct Hinv as (Hb & Hab & l1 & l2 & Hc & H1 & H2).
    exists l1, b, l2, cnt. assert (truthy (Some b) = true) as -> by (by destruct b).
    done.
  - left. done.
Qed.

Lemma guess_is_first_minimum_witness :
  (Forall (λ c, ahead env_counts c = None) (OD.keys series_AB ++ ["master"])
   ∧ guess_branch env_counts series_AB = "master")
  ∨ (∃ l1 b l2 n,
       OD.keys series_AB ++ ["master"] = l1 ++ b :: l2
       ∧ guess_branch env_counts series_AB = b
       ∧ ahead env_counts b = Some n
       ∧ Forall (λ c, ∀ m, ahead env_counts c = Some m → n < m) l1
       ∧ Forall (λ c, ∀ m, ahead env_counts c = Some m → n ≤ m) l2).
Proof.
  apply (proj1 guess_is_first_minimum env_counts series_AB).
  intros _. reflexivity.
Defined.

(** An empty candidate name that did get a count would be forgotten at the
    next candidate, whatever the counts: [not possible_branch] also holds
    for the empty string. *)
Example guess_empty_name :
  guess_branch {| sys_argv := []; releases_json := []; git := git_empty_name |} [("", "1.0")]
  = "master".
Proof. reflexivity. Qed.

(** ** The distribution version *)

Section distro.

(** C4: DISTRO is the resolved version, except that at a branch tip it is
    the latest release tag without its [yocto-] prefix, whatever the resolved
    version, and that otherwise for the resolved versions [dev] and [next] it
    is the series version of the series in active development. *)
Theorem distro_value :
  (∀ (E : Env) (version : string) (latesttag : option string)
     (release_series : OD.t) (devbranch : string),
     (∀ tag, (latest_tags E version).1 = "yocto-" +:+ tag →
             distro version true (latest_tags E version).2 release_series devbranch
             = Ok tag)
     ∧ (version ∈ ["dev"; "next"] →
        distro version false latesttag release_series devbranch
        = OD.getitem release_series devbranch)
     ∧ (version ∉ ["dev"; "next"] →
        distro version false latesttag release_series devbranch = Ok version))
  ∧ distro "5.2-tip" true (latest_tags (env_describe ("yocto-5.2.1" +:+ nl)) "5.2-tip").2
      [("wrynose", "5.3"); ("walnascar", "5.2")] "wrynose" = Ok "5.2.1"
  ∧ distro "dev" false (latest_tags (env_describe ("yocto-5.2.1" +:+ nl)) "dev").2
      [("wrynose", "5.3"); ("walnascar", "5.2")] "wrynose" = Ok "5.3".
Proof.
  split; [|split; reflexivity].
  intros E version latesttag rs devbranch. split; [|split].
  - intros tag. unfold latest_tags.
    set (latestreltag := Py.strip _).
    destruct (decide (latestreltag ≠ "")) as [Hne|He].
    + destruct (Py.startswith "yocto-" latestreltag) eqn:Hstart; simpl.
      * intros ->. reflexivity.
      * intros Heq. exfalso.
        assert (Py.startswith "yocto-" latestreltag = true) as Hs
          by (apply startswith_spec; eauto).
        congruence.
    + simpl. intros Heq. apply (inj (String.app "yocto-")) in Heq. by subst.
  - intros Hv. unfold distro, Py.list_in. by rewrite bool_decide_eq_true_2.
  - intros Hv. unfold distro, Py.list_in. by rewrite bool_decide_eq_false_2.
Qed.

Lemma distro_value_witness :
  (∀ tag, (latest_tags (env_describe ("yocto-5.2.1" +:+ nl)) "5.2-tip").1 = "yocto-" +:+ tag →
          distro "5.2-tip" true (latest_tags (env_describe ("yocto-5.2.1" +:+ nl)) "5.2-tip").2
            [("wrynose", "5.3")] "wrynose" = Ok tag)
  ∧ ("5.2-tip" ∈ ["dev"; "next"] →
     distro "5.2-tip" false None [("wrynose", "5.3")] "wrynose"
     = OD.getitem [("wrynose", "5.3")] "wrynose")
  ∧ ("5.2-tip" ∉ ["dev"; "next"] →
     distro "5.2-tip" false None [("wrynose", "5.3")] "wrynose" = Ok "5.2-tip").
Proof.
  exact (proj1 distro_value (env_describe ("yocto-5.2.1" +:+ nl)) "5.2-tip" None
           [("wrynose", "5.3")] "wrynose").
Defined.

(** Without any release tag the script falls back on the resolved version. *)
Example distro_without_tag :
  distro "5.2-tip" true (latest_tags (env_describe "") "5.2-tip").2 [] "wrynose"
  = Ok "5.2-tip".
Proof. reflexivity. Qed.

End distro.

(** ** Rendering poky.yaml *)

Section poky_yaml.

Implicit Types (t : gmap string string).

Lemma split_head c s : head (Py.split c s) = Some (before_first c s).
Proof.
  induction s as [|d s IH]; [done|]. simpl.
  destruct (decide (d = c)); [done|].
  destruct (Py.split c s) as [|w ws]; [done|]. simpl in *. by simplify_eq.
Qed.

Lemma render_line_unfold t line :
  render_line t line
  = match t !! Py.strip (before_first ":" line) with
    | Some v => rewritten (Py.strip (before_first ":" line)) v
    | None => line
    end.
Proof. unfold render_line. by rewrite split_head. Qed.

(** C5, as amended: a line whose key (the text before its first colon,
    stripped) is not in the table is written unchanged; a line whose key is
    in the table is written as the key, [ : ], the quoted value and a line
    feed; so what is written equals the line exactly when the key is not in
    the table or the line already has that form. *)
Theorem render_line_spec t line :
  let k := Py.strip (before_first ":" line) in
  (t !! k = None → render_line t line = line)
  ∧ (∀ v, t !! k = Some v → render_line t line = rewritten k v)
  ∧ (render_line t line = line ↔
     t !! k = None ∨ ∃ v, t !! k = Some v ∧ line = rewritten k v).
Proof.
  intros k. rewrite render_line_unfold. fold k.
  destruct (t !! k) as [v|] eqn:Hk.
  - split; [done|]. split; [by intros ? [= <-]|].
    split.
    + intros Heq. right. eauto.
    + intros [?|(v' & Hv' & Hline)]; [done|]. by simplify_eq.
  - split; [done|]. split; [done|]. split; auto.
Qed.

Lemma render_line_spec_witness :
  let k := Py.strip (before_first ":" "  FOO: bar") in
  (({["DISTRO" := "5.3"]} : gmap string string) !! k = None →
   render_line {["DISTRO" := "5.3"]} "  FOO: bar" = "  FOO: bar")
  ∧ (∀ v, ({["DISTRO" := "5.3"]} : gmap string string) !! k = Some v →
          render_line {["DISTRO" := "5.3"]} "  FOO: bar" = rewritten k v)
  ∧ (render_line {["DISTRO" := "5.3"]} "  FOO: bar" = "  FOO: bar" ↔
     ({["DISTRO" := "5.3"]} : gmap string string) !! k = None
     ∨ ∃ v, ({["DISTRO" := "5.3"]} : gmap string string) !! k = Some v
            ∧ "  FOO: bar" = rewritten k v).
Proof. exact (render_line_spec {["DISTRO" := "5.3"]} "  FOO: bar"). Defined.

(** C5 as stated fails: a line that already reads as its rendering is
    written unchanged although its key is in the table. *)
Lemma render_line_unchanged_with_key :
  ¬ (render_line {["DISTRO" := "5.3"]} line_already_rendered = line_already_rendered
     ↔ ({["DISTRO" := "5.3"]} : gmap string string)
         !! Py.strip (before_first ":" line_already_rendered) = None).
Proof. intros [H _]. specialize (H eq_refl). vm_compute in H. discriminate. Qed.

End poky_yaml.

(** ** Writing files *)

Section writing.

Implicit Types (w : world) (path : string).

Lemma bind_lift_ok {A B} (a : A) (f : A → M B) w : (lift (Ok a) ≫= f) w = f a w.
Proof. reflexivity. Qed.

Lemma bind_lift_raise {A B} e (f : A → M B) w : (lift (Raise e) ≫= f) w = (Raise e, w).
Proof. reflexivity. Qed.

Lemma bind_write {B} path s (f : unit → M B) w :
  (write path s ≫= f) w = f () (append_to path s w).
Proof. reflexivity. Qed.

Lemma append_to_append path a b w :
  append_to path b (append_to path a w) = append_to path (a +:+ b) w.
Proof.
  unfold append_to. simpl. f_equal.
  rewrite lookup_insert_eq, insert_insert_eq. simpl.
  by rewrite append_assoc.
Qed.

Lemma bind_assoc {A B C} (m : M A) (f : A → M B) (g : B → M C) w :
  ((m ≫= f) ≫= g) w = (m ≫= (λ x, f x ≫= g)) w.
Proof. unfold mbind, M_bind. by destruct (m w) as [[a|e] w']. Qed.

Lemma only_writes_write path s : only_writes path s (write path s).
Proof. intros a w. unfold write. by rewrite append_to_append. Qed.

Lemma only_writes_ret path : only_writes path "" (mret ()).
Proof. intros a w. by rewrite append_nil_r. Qed.

Lemma only_writes_seq path s1 s2 (m1 m2 : M unit) :
  only_writes path s1 m1 → only_writes path s2 m2 →
  only_writes path (s1 +:+ s2) (m1 ;; m2).
Proof.
  intros H1 H2 a w. unfold mbind, M_bind. rewrite H1, H2.
  by rewrite append_assoc.
Qed.

Lemma only_writes_for {A} path (f : A → string) (body : A → M unit) (l : list A) :
  (∀ x, only_writes path (f x) (body x)) →
  only_writes path (concat_str (map f l)) (for_ l body).
Proof.
  intros Hbody. induction l as [|x l IH]; simpl.
  - apply only_writes_ret.
  - by apply only_writes_seq.
Qed.

(** After a first write. *)
Lemma write_then path a s (m : M unit) w :
  only_writes path s m →
  (write path a ;; m) w = (Ok (), append_to path (a +:+ s) w).
Proof. intros Hm. rewrite bind_write. apply Hm. Qed.

(** A loop whose rounds write or do nothing. *)
Lemma for_filter {A} (p : A → bool) (g : A → M unit) (l : list A) :
  for_ l (λ x, if p x then g x else mret ()) = for_ (List.filter p l) g.
Proof.
  induction l as [|x l IH]; [done|]. simpl. rewrite IH.
  destruct (p x); [done|]. reflexivity.
Qed.

(** What opening a file for writing and then writing line after line
    leaves in it. *)
Lemma open_write_lines {A} path (f : A → string) (l : list A) w :
  (open_w path ;; for_ l (λ x, write path (f x))) w
  = (Ok (), {| files := <[path := concat_str (map f l)]> (files w);
               printed := printed w |}).
Proof.
  change ((open_w path ;; for_ l (λ x, write path (f x))) w)
    with (for_ l (λ x, write path (f x))
            {| files := <[path := ""]> (files w); printed := printed w |}).
  destruct l as [|x l]; [done|].
  change (for_ (x :: l) (λ x, write path (f x)))
    with (write path (f x) ;; for_ l (λ x, write path (f x))).
  rewrite (write_then _ _ (concat_str (map f l))).
  - unfold append_to. simpl. by rewrite lookup_insert_eq, insert_insert_eq.
  - apply only_writes_for. intros y. apply only_writes_write.
Qed.

(** The whole of poky.yaml: every line of the template rendered in turn. *)
Lemma render_poky_yaml_content t w content :
  files w !! "poky.yaml.in" = Some content →
  render_poky_yaml t w
  = (Ok (), {| files := <["poky.yaml" := concat_str (map (render_line t) (readlines content))]>
                          (files w);
               printed := printed w |}).
Proof.
  intros Hc. unfold render_poky_yaml.
  unfold mbind at 1, M_bind at 1, exists_.
  rewrite bool_decide_eq_true_2 by (by rewrite Hc).
  unfold mbind at 1, M_bind at 1, read_file. rewrite Hc. simpl or_raise.
  apply (open_write_lines "poky.yaml" (render_line t)).
Qed.


End writing.

(** ** The index of manuals *)

Section releases_rst.

Implicit Types (w : world) (rs : OD.t) (tags : list string).



Lemma only_writes_bullets sv tags :
  only_writes releases_rst (concat_str (map bullet (listed sv tags))) (write_bullets sv tags).
Proof.
  unfold write_bullets.
  rewrite (for_filter (tag_matches sv) (λ tag, write releases_rst (bullet tag))).
  apply only_writes_for. intros tag. apply only_writes_write.
Qed.

(** A title, maybe a fixed line, the bullets and an empty line. *)
Lemma title_then_bullets sv name extra (fixed : M unit) tags w :
  only_writes releases_rst extra fixed →
  (write_title sv name ;; fixed ;; write_bullets sv tags ;; write releases_rst nl) w
  = (Ok (), append_to releases_rst
              (title_block sv name +:+ extra
               +:+ concat_str (map bullet (listed sv tags)) +:+ nl) w).
Proof.
  intros Hfixed. unfold write_title. rewrite bind_assoc.
  erewrite write_then; cycle 1.
  - repeat first [ apply only_writes_seq | apply only_writes_write | exact Hfixed
                 | apply only_writes_bullets ].
  - f_equal. f_equal. unfold title_block. rewrite !append_assoc. reflexivity.
Qed.



(** The whole of releases.rst. *)
Lemma only_writes_for_in {A} path (f : A → string) (body : A → M unit) (l : list A) :
  (∀ x, x ∈ l → only_writes path (f x) (body x)) →
  only_writes path (concat_str (map f l)) (for_ l body).
Proof.
  induction l as [|x l IH]; intros Hbody; simpl.
  - apply only_writes_ret.
  - apply only_writes_seq; [apply Hbody; left|].
    apply IH. intros y Hy. apply Hbody. by right.
Qed.

Lemma only_writes_whole path s (m : M unit) :
  (∀ w, m w = (Ok (), append_to path s w)) → only_writes path s m.
Proof. intros Hm a w. by rewrite Hm, append_to_append. Qed.

Lemma get_of_key rs k : k ∈ OD.keys rs → is_Some (OD.get k rs).
Proof.
  induction rs as [|[k' v] rs IH]; simpl.
  - by intros ?%elem_of_nil.
  - destruct (decide (k' = k)) as [|Hne]; [eauto|].
    intros [Heq|Hin]%elem_of_cons; [congruence|by apply IH].
Qed.

Lemma only_writes_supported rs tags a :
  is_Some (OD.get a rs) →
  only_writes releases_rst (supported_text rs tags a) (supported_section rs tags a).
Proof.
  intros [sv Hsv]. apply only_writes_whole. intros w.
  unfold supported_text. rewrite Hsv.
  unfold supported_section, OD.getitem. rewrite Hsv. cbn [or_raise].
  rewrite bind_lift_ok.
  transitivity ((write_title sv a ;; mret () ;; write_bullets sv tags ;;
                 write releases_rst nl) w); [reflexivity|].
  by rewrite (title_then_bullets sv a "" (mret ()) tags w (only_writes_ret _)).
Qed.

Lemma only_writes_outdated rs tags devbranch activereleases s :
  is_Some (OD.get s rs) →
  only_writes releases_rst (outdated_text rs tags devbranch activereleases s)
    (outdated_section rs tags devbranch activereleases s).
Proof.
  intros [sv Hsv]. unfold outdated_text, outdated_section.
  destruct (bool_decide (s = devbranch) || Py.list_in s activereleases);
    [apply only_writes_ret|].
  destruct (bool_decide (s = "jethro-pre")); [apply only_writes_ret|].
  rewrite Hsv. apply only_writes_whole. intros w.
  unfold OD.getitem. rewrite Hsv. cbn [or_raise]. rewrite bind_lift_ok.
  apply title_then_bullets.
  case_bool_decide; [apply only_writes_write|apply only_writes_ret].
Qed.

Lemma write_releases_rst_content E activereleases devbranch rs w :
  (∀ a, a ∈ activereleases → is_Some (OD.get a rs)) →
  write_releases_rst E activereleases devbranch rs w
  = (Ok (), {| files := <[releases_rst :=
                            releases_rst_text rs (all_tags E) devbranch activereleases]>
                          (files w);
               printed := printed w |}).
Proof.
  intros Hactive. unfold write_releases_rst. fold (all_tags E).
  change ((open_w releases_rst ;; ?m) w)
    with (m {| files := <[releases_rst := ""]> (files w); printed := printed w |}).
  erewrite write_then; cycle 1.
  - repeat first
      [ apply only_writes_seq | apply only_writes_write
      | apply (only_writes_for_in releases_rst (supported_text rs (all_tags E)));
        intros a Ha; apply only_writes_supported, Hactive, Ha
      | apply (only_writes_for_in releases_rst
                 (outdated_text rs (all_tags E) devbranch activereleases));
        intros s Hs; apply only_writes_outdated, get_of_key, Hs ].
  - unfold append_to. simpl. rewrite lookup_insert_eq, insert_insert_eq. simpl.
    unfold releases_rst_text. rewrite !append_assoc. reflexivity.
Qed.

End releases_rst.

(** ** Fatal exits *)

Section exits.

Lemma no_exit_r_bind {A B} (r : result A) (f : A → result B) :
  no_exit_r r → (∀ a, no_exit_r (f a)) → no_exit_r (r ≫= f).
Proof. destruct r as [a|e]; simpl; auto. Qed.

Lemma no_exit_r_or_raise {A} e (o : option A) :
  no_exit_r (@Raise A e) → no_exit_r (or_raise e o).
Proof. by destruct o. Qed.

Lemma no_exit_lift {A} (r : result A) : no_exit_r r → no_exit (lift r).
Proof. intros H w. done. Qed.

Lemma no_exit_bind {A B} (m : M A) (f : A → M B) :
  no_exit m → (∀ a, no_exit (f a)) → no_exit (m ≫= f).
Proof.
  intros Hm Hf w. unfold mbind, M_bind. specialize (Hm w).
  destruct (m w) as [[a|e] w']; simpl in *; [apply Hf|done].
Qed.

Lemma no_exit_for {A} (l : list A) (body : A → M unit) :
  (∀ x, no_exit (body x)) → no_exit (for_ l body).
Proof.
  intros Hbody. induction l as [|x l IH]; simpl; [done|].
  apply no_exit_bind; auto.
Qed.

(** Goals of the form [no_exit_r r] and [no_exit m], by the shape of the
    code. *)
Ltac no_exit_step :=
  match goal with
  | |- no_exit_r (Ok _) => exact I
  | |- no_exit_r (Raise _) => exact I
  | |- no_exit_r (mret _) => exact I
  | |- no_exit_r (or_raise _ _) => apply no_exit_r_or_raise; exact I
  | |- no_exit_r (_ ≫= _) => apply no_exit_r_bind; [|intros ?]
  | |- no_exit_r (if ?b then _ else _) => destruct b
  | |- no_exit_r (match ?x with _ => _ end) => destruct x
  | |- no_exit (lift _) => apply no_exit_lift
  | |- no_exit (_ ≫= _) => apply no_exit_bind; [|intros ?]
  | |- no_exit (for_ _ _) => apply no_exit_for; intros ?
  | |- no_exit (if ?b then _ else _) => destruct b
  | |- no_exit (mret _) => intros ?; exact I
  | |- no_exit (write _ _) => intros ?; exact I
  | |- no_exit (open_w _) => intros ?; exact I
  | |- no_exit (exists_ _) => intros ?; exact I
  | |- no_exit (read_file _) => intros w; unfold read_file; simpl;
                                 apply no_exit_r_or_raise; exact I
  end.

Ltac no_exit := repeat no_exit_step; try done.

Lemma no_exit_item {A} (l : list A) i : no_exit_r (Py.item l i).
Proof. unfold Py.item. no_exit. Qed.

Lemma no_exit_getitem rs k : no_exit_r (OD.getitem rs k).
Proof. unfold OD.getitem. no_exit. Qed.

Lemma no_exit_index x l : no_exit_r (Py.index x l).
Proof. induction l as [|y l IH]; simpl; no_exit. Qed.

Lemma no_exit_remove x l : no_exit_r (Py.remove x l).
Proof. induction l as [|y l IH]; simpl; no_exit. Qed.

Lemma no_exit_keyed_int l : no_exit_r (Py.keyed_int l).
Proof. induction l as [|y l IH]; simpl; no_exit. Qed.

Lemma no_exit_get_releases releases : no_exit_r (get_releases releases).
Proof. unfold get_releases. no_exit. apply no_exit_remove. Qed.

Lemma no_exit_resolve_from_tags rs tags : no_exit_r (resolve_from_tags rs tags).
Proof. induction tags as [|t tags IH]; simpl; no_exit. Qed.

Lemma no_exit_resolve_version E rs dev : no_exit_r (resolve_version E rs dev).
Proof.
  unfold resolve_version. no_exit; [apply no_exit_resolve_from_tags|].
  unfold resolve_from_branch. no_exit. apply no_exit_getitem.
Qed.

Lemma no_exit_previousseries rs o : no_exit_r (previousseries rs o).
Proof. unfold previousseries. no_exit. apply no_exit_index. Qed.

Lemma no_exit_distro v tip lt rs dev : no_exit_r (distro v tip lt rs dev).
Proof. unfold distro, bound. no_exit. apply no_exit_getitem. Qed.

Lemma no_exit_getitem0 v : no_exit_r (getitem0 v).
Proof. destruct v as [l|s]; simpl; [apply no_exit_item|by destruct s]. Qed.

Lemma no_exit_make_replacements rs d lt o v b prev lts :
  no_exit_r (make_replacements rs d lt o v b prev lts).
Proof.
  unfold make_replacements, bound, add_pokyversion.
  no_exit; auto using no_exit_getitem, @no_exit_item, no_exit_getitem0.
Qed.

Lemma no_exit_get_latest_tag E rs branch : no_exit_r (get_latest_tag E rs branch).
Proof.
  unfold get_latest_tag, Py.sorted_key_int, Py.last_item.
  no_exit; auto using no_exit_getitem, no_exit_keyed_int.
Qed.

Lemma no_exit_render_poky_yaml t : no_exit (render_poky_yaml t).
Proof. unfold render_poky_yaml. no_exit. Qed.

Lemma no_exit_render_switchers E ar rs : no_exit (render_switchers E ar rs).
Proof.
  unfold render_switchers, switchers_line.
  no_exit; auto using no_exit_getitem, no_exit_get_latest_tag, @no_exit_item.
Qed.

Lemma no_exit_write_releases_rst E ar dev rs : no_exit (write_releases_rst E ar dev rs).
Proof.
  unfold write_releases_rst, supported_section, outdated_section, write_title, write_bullets.
  no_exit; auto using no_exit_getitem.
Qed.

(** Past the two checks the script never calls [sys.exit]. *)
Lemma no_exit_build E ar dev lts rs : no_exit (build E ar dev lts rs).
Proof.
  unfold build.
  no_exit; auto using no_exit_resolve_version, no_exit_previousseries, no_exit_distro,
    no_exit_make_replacements, no_exit_render_poky_yaml, no_exit_render_switchers,
    no_exit_write_releases_rst.
Qed.

Lemma check_repository_cases E :
  (returncode (git E ["rev-parse"; "--is-inside-work-tree"]) = 0%Z
   ∧ check_repository E = Ok ())
  ∨ (returncode (git E ["rev-parse"; "--is-inside-work-tree"]) ≠ 0%Z
     ∧ check_repository E = Raise (SystemExit (ExitMsg msg_not_a_repository))).
Proof.
  unfold check_repository, run_check.
  destruct (decide (returncode _ = 0%Z)); [left|right]; done.
Qed.

Lemma check_tags_cases E ar rs :
  (first_tag_missing E ar rs
   ∧ check_tags E ar rs = Raise (SystemExit (ExitMsg msg_fetch_tags)))
  ∨ (¬ first_tag_missing E ar rs ∧ no_exit_r (check_tags E ar rs)).
Proof.
  unfold check_tags, run_check, first_tag_missing, Py.item, OD.getitem.
  destruct (ar !! 0) as [a|] eqn:Ha; simpl.
  - destruct (OD.get a rs) as [v|] eqn:Hv; simpl.
    + destruct (decide (returncode (git E ["show"; "yocto-" +:+ v]) = 0%Z)) as [Hrc|Hrc].
      * right. split; [|done]. intros (a' & v' & ? & ? & ?). by simplify_eq.
      * left. split; [|done]. eauto.
    + right. split; [|done]. intros (a' & v' & ? & ? & ?). by simplify_eq.
  - right. split; [|done]. intros (a' & v' & ? & ? & ?). by simplify_eq.
Qed.

(** C8: the script ends in [sys.exit] with a message in exactly two cases,
    both met after the registry is loaded (and outside the [getlatest] mode)
    and before any file is touched: Git does not see a work tree, with the
    message that tells to clone the repository; Git sees one but the tag of
    the first active release cannot be shown, with the message that tells to
    fetch the tags. In both cases the file system is as it was. *)
Theorem fatal_exits E w msg :
  ((script E w).1 = Raise (SystemExit (ExitMsg msg)) ↔
   ∃ ar dev lts rs,
     get_releases (releases_json E) = Ok (ar, dev, lts, rs)
     ∧ sys_argv E !! 1 ≠ Some "getlatest"
     ∧ ((returncode (git E ["rev-parse"; "--is-inside-work-tree"]) ≠ 0%Z
         ∧ msg = msg_not_a_repository)
        ∨ (returncode (git E ["rev-parse"; "--is-inside-work-tree"]) = 0%Z
           ∧ first_tag_missing E ar rs
           ∧ msg = msg_fetch_tags)))
  ∧ ((script E w).1 = Raise (SystemExit (ExitMsg msg)) → (script E w).2 = w).
Proof.
  unfold script.
  pose proof (no_exit_get_releases (releases_json E)) as Hgr.
  destruct (get_releases (releases_json E)) as [[[[ar dev] lts] rs]|e] eqn:Hget.
  2:{ rewrite bind_lift_raise. simpl. split; [|done]. split.
      - intros [= ->]. done.
      - intros (? & ? & ? & ? & ? & _). done. }
  rewrite bind_lift_ok. cbv beta iota.
  destruct (decide (sys_argv E !! 1 = Some "getlatest")) as [Hmode|Hmode].
  { rewrite bool_decide_eq_true_2 by done. unfold Py.item.
    split; [split|].
    - destruct (ar !! 0); simpl; done.
    - intros (? & ? & ? & ? & ? & ? & _). done.
    - destruct (ar !! 0); simpl; done. }
  rewrite bool_decide_eq_false_2 by done.
  destruct (check_repository_cases E) as [[Hrc Hcr]|[Hrc Hcr]]; rewrite Hcr.
  2:{ rewrite bind_lift_raise. simpl. split; [|done]. split.
      - intros [= <-]. exists ar, dev, lts, rs. split; [done|]. split; [done|]. by left.
      - intros (? & ? & ? & ? & [= <- <- <- <-] & _ & [[_ ->]|[? _]]); done. }
  rewrite bind_lift_ok.
  destruct (check_tags_cases E ar rs) as [[Hmiss Hct]|[Hmiss Hct]].
  { rewrite Hct, bind_lift_raise. simpl. split; [|done]. split.
    - intros [= <-]. exists ar, dev, lts, rs. split; [done|]. split; [done|]. by right.
    - intros (? & ? & ? & ? & [= <- <- <- <-] & _ & [[? _]|(_ & _ & ->)]); done. }
  destruct (check_tags E ar rs) as [[]|e] eqn:Hcheck.
  2:{ rewrite bind_lift_raise. simpl. split.
      - split.
        + intros [= ->]. done.
        + intros (? & ? & ? & ? & [= <- <- <- <-] & _ & [[? _]|(_ & ? & _)]); done.
      - intros [= ->]. done. }
  rewrite bind_lift_ok.
  pose proof (no_exit_build E ar dev lts rs w) as Hb.
  split.
  - split.
    + intros Heq. rewrite Heq in Hb. done.
    + intros (? & ? & ? & ? & [= <- <- <- <-] & _ & [[? _]|(_ & ? & _)]); done.
  - intros Heq. rewrite Heq in Hb. done.
Qed.
Lemma fatal_exits_witness :
  (script env_no_repository world_templates).1
  = Raise (SystemExit (ExitMsg msg_not_a_repository))
  ∧ (script env_no_repository world_templates).2 = world_templates.
Proof.
  destruct (fatal_exits env_no_repository world_templates msg_not_a_repository)
    as [Hiff Hsame].
  assert (Hexit : (script env_no_repository world_templates).1
                  = Raise (SystemExit (ExitMsg msg_not_a_repository))).
  { apply Hiff. eexists _, _, _, _. split; [reflexivity|]. split; [done|].
    left. split; [done|reflexivity]. }
  split; [exact Hexit|exact (Hsame Hexit)].
Defined.

(** In a clone without tags the script stops at the second check. *)
Example exit_without_tags :
  script env_no_tags world_templates
  = (Raise (SystemExit (ExitMsg msg_fetch_tags)), world_templates).
Proof. reflexivity. Qed.

(** With no active release the second check fails on [activereleases[0]],
    an uncaught [IndexError], not an exit with a message. *)
Example no_active_release :
  check_tags env_no_tags [] [("wrynose", "6.0")] = Raise IndexError.
Proof. reflexivity. Qed.

End exits.

(** ** A run of the script *)

(** At the tip of scarthgap, whose latest tag is yocto-5.0.3: DISTRO is
    5.0.3, no later series is an LTS, and an unknown key is left alone. *)
Example run_at_scarthgap_tip :
  (script env_scarthgap_tip world_templates).1 = Ok ()
  ∧ files (script env_scarthgap_tip world_templates).2 !! "poky.yaml"
    = Some ("DISTRO : " +:+ dquote +:+ "5.0.3" +:+ dquote +:+ nl
            +:+ "DISTRO_NAME_NO_CAP_LTS : " +:+ dquote +:+ "d" +:+ dquote +:+ nl
            +:+ "  OTHER: kept" +:+ nl).
Proof. split; vm_compute; reflexivity. Qed.

(** The mode [getlatest] prints the first active release and exits with
    status 0 before Git is asked anything. *)
Example run_getlatest :
  script {| sys_argv := ["set_versions.py"; "getlatest"];
            releases_json := registry_example; git := git_fails |} world_templates
  = (Raise (SystemExit (ExitCode 0)),
     {| files := files world_templates; printed := ["whinlatter"] |}).
Proof. reflexivity. Qed.

(** ** The latest tag of a branch *)

Section latest_tag.

Implicit Types (s old new : string) (c : ascii).






(** What [int] accepts has no letter. *)
Lemma count_char_lstrip c s :
  Py.is_space c = false → Py.count_char c (Py.lstrip s) = Py.count_char c s.
Proof.
  intros Hc. induction s as [|d s IH]; [done|]. simpl.
  destruct (Py.is_space d) eqn:Hd; [|done].
  destruct (decide (d = c)); [congruence|]. by rewrite IH.
Qed.

Lemma count_char_rstrip c s :
  Py.is_space c = false → Py.count_char c (Py.rstrip s) = Py.count_char c s.
Proof.
  intros Hc. induction s as [|d s IH]; [done|]. simpl.
  destruct (Py.rstrip s) as [|e r] eqn:Hr.
  - simpl in IH. rewrite <- IH.
    destruct (Py.is_space d) eqn:Hd; simpl.
    + destruct (decide (d = c)); [congruence|]. done.
    + done.
  - change (Py.count_char c (String d (String e r)))
      with ((if decide (d = c) then 1 else 0) + Py.count_char c (String e r)).
    by rewrite IH.
Qed.

Lemma count_char_strip c s :
  Py.is_space c = false → Py.count_char c (Py.strip s) = Py.count_char c s.
Proof.
  intros Hc. unfold Py.strip. by rewrite count_char_rstrip, count_char_lstrip.
Qed.


















(** The greatest point number is greatest as a number: 10 comes after 2. *)
Example latest_tag_numeric :
  get_latest_tag (env_tags "yocto-5.3*" tags_5_3) [("whinlatter", "5.3")] "whinlatter"
  = Ok "5.3.10".
Proof. reflexivity. Qed.

(** The point number 0 is taken for the bare tag. *)
Example latest_tag_of_point_zero :
  get_latest_tag (env_tags "yocto-5.3*" ("yocto-5.3.0" +:+ nl))
    [("whinlatter", "5.3")] "whinlatter" = Ok "5.3".
Proof. reflexivity. Qed.


End latest_tag.

(** ** More on the registry loader *)

Section loader_more.

Lemma loop_ltsseries releases st :
  st_ltsseries (fold_left get_releases_step releases st)
  = st_ltsseries st ++ map codename_of (List.filter is_lts releases).
Proof.
  revert st. induction releases as [|r rs IH]; intros st; simpl.
  - by rewrite app_nil_r.
  - rewrite IH. unfold is_lts at 2. simpl.
    destruct (Py.contains "LTS until" (status r)); simpl; [|done].
    by rewrite <- app_assoc.
Qed.

(** Assigning to a new key appends it. *)
Lemma set_new k v (d : OD.t) : k ∉ OD.keys d → OD.set k v d = d ++ [(k, v)].
Proof.
  induction d as [|[k' v'] d IH]; [done|]. simpl.
  intros [Hne Hk]%not_elem_of_cons.
  destruct (decide (k' = k)); [congruence|]. by rewrite IH.
Qed.

(** Reading after assigning. *)
Lemma get_set k k' v (d : OD.t) :
  OD.get k (OD.set k' v d) = if decide (k' = k) then Some v else OD.get k d.
Proof.
  induction d as [|[k'' v''] d IH]; simpl.
  - destruct (decide (k' = k)); done.
  - destruct (decide (k'' = k')) as [->|Hne]; simpl.
    + destruct (decide (k' = k)); done.
    + destruct (decide (k'' = k)) as [->|Hne'].
      * destruct (decide (k' = k)); [congruence|done].
      * done.
Qed.

Lemma get_some_key k v (d : OD.t) : OD.get k d = Some v → k ∈ OD.keys d.
Proof.
  induction d as [|[k' v'] d IH]; [done|]. simpl.
  destruct (decide (k' = k)) as [->|]; [left|]. intros H. right. by apply IH.
Qed.

Lemma loop_release_series_distinct releases st :
  NoDup (OD.keys (st_release_series st) ++ map codename_of releases) →
  st_release_series (fold_left get_releases_step releases st)
  = st_release_series st ++ registry_pairs releases.
Proof.
  revert st. induction releases as [|r rs IH]; intros st Hnd; simpl.
  - by rewrite app_nil_r.
  - apply NoDup_app in Hnd as (Hst & Hdisj & Hrs). simpl in Hrs.
    apply NoDup_cons in Hrs as [Hr Hrs].
    assert (Hnew : codename_of r ∉ OD.keys (st_release_series st)).
    { intros Hin. apply (Hdisj _ Hin). left. }
    rewrite IH; simpl.
    + rewrite set_new by done. by rewrite <- app_assoc.
    + rewrite set_new by done. unfold OD.keys. rewrite map_app. simpl.
      rewrite <- app_assoc. simpl.
      apply NoDup_app. split; [done|]. split.
      * intros x Hx [->|Hin]%elem_of_cons; [done|].
        apply (Hdisj _ Hx). by right.
      * by apply NoDup_cons.
Qed.

Lemma loop_get releases st k :
  OD.get k (st_release_series (fold_left get_releases_step releases st))
  = match last_with k releases with
    | Some r => Some (series_version r)
    | None => OD.get k (st_release_series st)
    end.
Proof.
  revert st. induction releases as [|r rs IH]; intros st; [done|].
  simpl fold_left. rewrite IH. unfold last_with. simpl List.filter.
  fold (codename_of r).
  destruct (decide (codename_of r = k)) as [Hk|Hk].
  - rewrite bool_decide_eq_true_2 by done.
    destruct (List.filter _ rs) as [|r' l] eqn:Hf.
    + simpl. rewrite get_set. fold (codename_of r).
      by destruct (decide (codename_of r = k)).
    + change (last (r :: r' :: l)) with (last (r' :: l)).
      destruct (last (r' :: l)) eqn:Hl; [done|]. by apply last_None in Hl.
  - rewrite bool_decide_eq_false_2 by done.
    destruct (last _); [done|]. simpl. rewrite get_set. fold (codename_of r).
    by destruct (decide (codename_of r = k)).
Qed.

Lemma loop_keys releases st k :
  k ∈ OD.keys (st_release_series (fold_left get_releases_step releases st))
  ↔ k ∈ OD.keys (st_release_series st) ∨ k ∈ map codename_of releases.
Proof.
  revert st. induction releases as [|r rs IH]; intros st; simpl.
  - split; [by left|]. intros [?|?%elem_of_nil]; done.
  - rewrite IH. simpl. rewrite keys_set. fold (codename_of r).
    rewrite elem_of_cons. case_bool_decide as Hin.
    + split; [tauto|]. intros [?|[->|?]]; tauto.
    + rewrite elem_of_app, list_elem_of_singleton. tauto.
Qed.

Lemma remove_ok_inv x l l' : Py.remove x l = Ok l' → x ∈ l ∧ l' ⊆ l.
Proof.
  revert l'. induction l as [|y l IH]; intros l'; [done|]. simpl.
  destruct (decide (y = x)) as [->|Hne].
  - intros [= ->]. split; [left|]. intros z Hz. by right.
  - destruct (Py.remove x l) as [r|] eqn:Hr; [|done]. simpl. intros [= <-].
    destruct (IH r eq_refl) as [Hx Hsub]. split; [by right|].
    intros z [->|Hz]%elem_of_cons; [left|right; by apply Hsub].
Qed.

(** X1: on a registry with distinct codenames whose one entry in active
    development is flagged current, [get_releases] returns the current
    codenames but that one, that one, the codenames whose status says
    "LTS until", and the pairs of codename and series version, all in the
    order of the registry. *)
Theorem get_releases_result before d after :
  is_dev d = true → is_current d = true →
  Forall (λ r, is_dev r = false) (before ++ after) →
  NoDup (map codename_of (before ++ d :: after)) →
  get_releases (before ++ d :: after)
  = Ok (map codename_of (List.filter is_current (before ++ after)),
        codename_of d,
        map codename_of (List.filter is_lts (before ++ d :: after)),
        registry_pairs (before ++ d :: after)).
Proof.
  intros Hd Hc Hothers Hnodup.
  apply Forall_app in Hothers as [Hb Ha].
  assert (Hdb : codename_of d ∉ map codename_of (List.filter is_current before)).
  { rewrite map_app in Hnodup. apply NoDup_app in Hnodup as (_ & Hdisj & _).
    intros Hin. apply (Hdisj (codename_of d)); [|left].
    apply list_elem_of_In, in_map_iff in Hin as (r & Hr & Hin).
    apply filter_In in Hin as [Hin _].
    apply list_elem_of_In, in_map_iff. eauto. }
  unfold get_releases, get_releases_loop.
  rewrite loop_devbranch by done.
  rewrite loop_activereleases, loop_ltsseries. simpl.
  rewrite loop_release_series_distinct by done. simpl.
  rewrite !List.filter_app. simpl. rewrite Hc. rewrite !map_app. simpl.
  by rewrite remove_first by done.
Qed.

Lemma get_releases_result_witness :
  get_releases registry_example
  = Ok (["whinlatter"; "scarthgap"], "wrynose", ["scarthgap"],
        [("wrynose", "6.0"); ("whinlatter", "5.3"); ("scarthgap", "5.0"); ("nanbield", "4.3")]).
Proof.
  apply (get_releases_result []
           {| release_codename := "Wrynose"; series_version := "6.0";
              status := "Active Development"; series := "current" |}
           (List.tl registry_example)).
  - reflexivity.
  - reflexivity.
  - compute_done.
  - compute_done.
Defined.

(** X2: the dictionary of series versions has each lowercased codename of the
    registry once as a key, and maps it to the series version of the last
    entry with that codename. *)
Theorem release_series_last_wins releases ar dev lts rs :
  get_releases releases = Ok (ar, dev, lts, rs) →
  NoDup (OD.keys rs)
  ∧ (∀ k, k ∈ OD.keys rs ↔ k ∈ map codename_of releases)
  ∧ (∀ k, OD.get k rs = series_version <$> last_with k releases).
Proof.
  intros Hget. split; [by eapply get_releases_keys_NoDup|].
  unfold get_releases in Hget.
  destruct (Py.remove _ _); simpl in Hget; [|done]. simplify_eq.
  unfold get_releases_loop. split.
  - intros k. rewrite loop_keys. simpl. split; [|by right].
    intros [?%elem_of_nil|?]; done.
  - intros k. rewrite loop_get. simpl. by destruct (last_with k releases).
Qed.

Lemma release_series_last_wins_witness :
  NoDup (OD.keys [("wrynose", "6.1"); ("whinlatter", "5.3")])
  ∧ (∀ k, k ∈ OD.keys [("wrynose", "6.1"); ("whinlatter", "5.3")] ↔
          k ∈ map codename_of
                [ {| release_codename := "Wrynose"; series_version := "6.0";
                     status := "Active Development"; series := "current" |};
                  {| release_codename := "Whinlatter"; series_version := "5.3";
                     status := "EOL"; series := "previous" |};
                  {| release_codename := "WRYNOSE"; series_version := "6.1";
                     status := "EOL"; series := "previous" |} ])
  ∧ (∀ k, OD.get k [("wrynose", "6.1"); ("whinlatter", "5.3")]
          = series_version <$>
              last_with k
                [ {| release_codename := "Wrynose"; series_version := "6.0";
                     status := "Active Development"; series := "current" |};
                  {| release_codename := "Whinlatter"; series_version := "5.3";
                     status := "EOL"; series := "previous" |};
                  {| release_codename := "WRYNOSE"; series_version := "6.1";
                     status := "EOL"; series := "previous" |} ]).
Proof.
  apply (release_series_last_wins _ [] "wrynose" []).
  reflexivity.
Defined.

(** X3: a registry without an entry in active development makes
    [get_releases] raise [ValueError], unless a current entry has the empty
    codename: the dev branch is still the empty string when it is removed
    from the active releases. *)
Theorem get_releases_without_dev releases :
  Forall (λ r, is_dev r = false) releases →
  "" ∉ map codename_of (List.filter is_current releases) →
  get_releases releases = Raise ValueError.
Proof.
  intros Hnodev Hempty. apply get_releases_raises. unfold get_releases_loop.
  rewrite loop_devbranch_none by done. by rewrite loop_activereleases.
Qed.

Lemma get_releases_without_dev_witness :
  get_releases (List.tl registry_example) = Raise ValueError.
Proof. apply get_releases_without_dev; compute_done. Defined.

Lemma get_releases_names releases ar dev lts rs :
  get_releases releases = Ok (ar, dev, lts, rs) →
  (∀ a, a ∈ ar → is_Some (OD.get a rs))
  ∧ is_Some (OD.get dev rs)
  ∧ (∀ l, l ∈ lts → is_Some (OD.get l rs)).
Proof.
  intros Hget. unfold get_releases in Hget.
  destruct (Py.remove _ _) as [ar'|] eqn:Hrm; simpl in Hget; [|done]. simplify_eq.
  apply remove_ok_inv in Hrm as [Hdev Hsub].
  unfold get_releases_loop in *.
  rewrite loop_activereleases in Hdev, Hsub. rewrite loop_ltsseries. simpl in *.
  assert (Hkey : ∀ k P, k ∈ map codename_of (List.filter P releases) →
            is_Some (OD.get k (st_release_series
              (fold_left get_releases_step releases
                 {| st_release_series := []; st_activereleases := [];
                    st_devbranch := ""; st_ltsseries := [] |})))).
  { intros k P Hk. apply get_of_key, loop_keys. right.
    apply list_elem_of_In, in_map_iff in Hk as (r & Hr & Hin).
    apply filter_In in Hin as [Hin _].
    apply list_elem_of_In, in_map_iff. eauto. }
  split; [|split].
  - intros a Ha. apply (Hkey a is_current). by apply Hsub.
  - by apply (Hkey _ is_current).
  - intros l Hl. by apply (Hkey l is_lts).
Qed.


(** X4: the names that [get_releases] returns are keys of the dictionary it
    returns: looking up an active release, the dev branch or an LTS series
    never raises [KeyError]. *)
Theorem get_releases_names_in_registry releases ar dev lts rs :
  get_releases releases = Ok (ar, dev, lts, rs) →
  (∀ a, a ∈ ar → ∃ v, OD.getitem rs a = Ok v)
  ∧ (∃ v, OD.getitem rs dev = Ok v)
  ∧ (∀ l, l ∈ lts → ∃ v, OD.getitem rs l = Ok v).
Proof.
  intros Hget. destruct (get_releases_names _ _ _ _ _ Hget) as (Har & Hdev & Hlts).
  assert (Hitem : ∀ k, is_Some (OD.get k rs) → ∃ v, OD.getitem rs k = Ok v).
  { intros k [v Hv]. exists v. unfold OD.getitem. by rewrite Hv. }
  split; [|split]; auto.
Qed.

Lemma get_releases_names_in_registry_witness :
  (∀ a, a ∈ ["whinlatter"; "scarthgap"] →
        ∃ v, OD.getitem [("wrynose", "6.0"); ("whinlatter", "5.3");
                         ("scarthgap", "5.0"); ("nanbield", "4.3")] a = Ok v)
  ∧ (∃ v, OD.getitem [("wrynose", "6.0"); ("whinlatter", "5.3");
                      ("scarthgap", "5.0"); ("nanbield", "4.3")] "wrynose" = Ok v)
  ∧ (∀ l, l ∈ ["scarthgap"] →
          ∃ v, OD.getitem [("wrynose", "6.0"); ("whinlatter", "5.3");
                           ("scarthgap", "5.0"); ("nanbield", "4.3")] l = Ok v).
Proof.
  apply (get_releases_names_in_registry registry_example).
  reflexivity.
Defined.

End loader_more.

(** ** More on version resolution *)

Section resolution_more.

Implicit Types (rs : OD.t) (E : Env).

(** X5: in the mode [getlatest] the script prints the first active release
    and exits with status 0, whatever Git would answer and without touching
    a file; with no active release it ends in an uncaught [IndexError]. *)
Theorem getlatest_mode E w ar dev lts rs :
  sys_argv E !! 1 = Some "getlatest" →
  get_releases (releases_json E) = Ok (ar, dev, lts, rs) →
  script E w
  = match ar with
    | a :: _ => (Raise (SystemExit (ExitCode 0)),
                 {| files := files w; printed := printed w ++ [a] |})
    | [] => (Raise IndexError, w)
    end.
Proof.
  intros Hmode Hget. unfold script. rewrite Hget, bind_lift_ok. cbv beta iota.
  rewrite bool_decide_eq_true_2 by done. by destruct ar.
Qed.

Lemma getlatest_mode_witness :
  script {| sys_argv := ["set_versions.py"; "getlatest"];
            releases_json := registry_example; git := git_fails |} world_templates
  = (Raise (SystemExit (ExitCode 0)),
     {| files := files world_templates; printed := printed world_templates ++ ["whinlatter"] |}).
Proof.
  apply (getlatest_mode
           {| sys_argv := ["set_versions.py"; "getlatest"];
              releases_json := registry_example; git := git_fails |}
           world_templates ["whinlatter"; "scarthgap"] "wrynose" ["scarthgap"]
           [("wrynose", "6.0"); ("whinlatter", "5.3"); ("scarthgap", "5.0");
            ("nanbield", "4.3")]).
  - reflexivity.
  - reflexivity.
Defined.

(** X6: when the registry has no active release besides the dev branch, a
    build inside a repository ends in an uncaught [IndexError] at the test
    for the tags, not in an exit with a message, and no file is touched. *)
Theorem no_active_release_is_index_error E w dev lts rs :
  sys_argv E !! 1 ≠ Some "getlatest" →
  get_releases (releases_json E) = Ok ([], dev, lts, rs) →
  returncode (git E ["rev-parse"; "--is-inside-work-tree"]) = 0%Z →
  script E w = (Raise IndexError, w).
Proof.
  intros Hmode Hget Hrepo. unfold script. rewrite Hget, bind_lift_ok. cbv beta iota.
  rewrite bool_decide_eq_false_2 by done.
  destruct (check_repository_cases E) as [[_ ->]|[Hrc _]]; [|done].
  by rewrite bind_lift_ok.
Qed.

Lemma no_active_release_is_index_error_witness :
  script {| sys_argv := ["set_versions.py"];
            releases_json := [ {| release_codename := "Wrynose"; series_version := "6.0";
                                  status := "Active Development"; series := "current" |} ];
            git := git_no_tags |} world_templates
  = (Raise IndexError, world_templates).
Proof.
  apply (no_active_release_is_index_error _ _ "wrynose" [] [("wrynose", "6.0")]).
  - done.
  - reflexivity.
  - reflexivity.
Defined.

(** Splitting at a separator. *)
Lemma split_no_sep c a : Py.count_char c a = 0 → Py.split c a = [a].
Proof.
  induction a as [|d a IH]; [done|]. simpl.
  destruct (decide (d = c)); [done|]. intros Ha. by rewrite IH.
Qed.

Lemma split_at_sep c a s :
  Py.count_char c a = 0 → Py.split c (a +:+ String c s) = a :: Py.split c s.
Proof.
  induction a as [|d a IH].
  - intros _. change ("" +:+ String c s) with (String c s). cbn [Py.split].
    by destruct (decide (c = c)).
  - cbn [Py.count_char]. destruct (decide (d = c)) as [|Hne]; [done|]. intros Ha.
    rewrite append_cons. cbn [Py.split].
    destruct (decide (d = c)); [done|]. by rewrite IH.
Qed.

(** The series version of a version: its first two dotted fields. *)
Lemma major_minor major minor tail :
  Py.count_char "." major = 0 → Py.count_char "." minor = 0 →
  tail = "" ∨ (∃ rest, tail = "." +:+ rest) →
  Py.join "." (take 2 (Py.split "." (major +:+ "." +:+ minor +:+ tail)))
  = major +:+ "." +:+ minor.
Proof.
  intros Hmajor Hminor Htail.
  change (major +:+ "." +:+ minor +:+ tail) with (major +:+ String "." (minor +:+ tail)).
  rewrite split_at_sep by done.
  destruct Htail as [->|[rest ->]].
  - rewrite append_nil_r, split_no_sep by done. done.
  - change (minor +:+ "." +:+ rest) with (minor +:+ String "." rest).
    rewrite split_at_sep by done. done.
Qed.

Lemma resolve_from_tags_skip rs l1 l2 :
  Forall not_yocto l1 →
  resolve_from_tags rs (l1 ++ l2) = resolve_from_tags rs l2.
Proof.
  induction 1 as [|t l1 Ht _ IH]; [done|]. simpl. unfold not_yocto in Ht.
  by rewrite Ht.
Qed.

Lemma find_series_first sv (p1 p2 : OD.t) k :
  Forall (λ p, p.2 ≠ sv) p1 → find_series sv (p1 ++ (k, sv) :: p2) = Some k.
Proof.
  induction 1 as [|[k' v'] p1 Hp _ IH]; simpl.
  - by destruct (decide (sv = sv)).
  - simpl in Hp. by destruct (decide (v' = sv)).
Qed.

Lemma find_series_none sv rs :
  Forall (λ p, p.2 ≠ sv) rs → find_series sv rs = None.
Proof.
  induction 1 as [|[k' v'] p1 Hp _ IH]; [done|]. simpl in *.
  by destruct (decide (v' = sv)).
Qed.

Lemma find_series_key sv rs k : find_series sv rs = Some k → k ∈ OD.keys rs.
Proof.
  induction rs as [|[k' v'] rs IH]; [done|]. simpl.
  destruct (decide (v' = sv)); [intros [= ->]; left|]. intros H. right. by apply IH.
Qed.

(** X7: when HEAD carries a tag yocto-X.Y or yocto-X.Y.Z..., the first such
    tag decides, whatever the branch: the version is the tag without its
    prefix, the series is the first of the registry whose series version is
    X.Y, the BitBake version is the one mapped to that series, and the
    checkout does not count as a branch tip. *)
Theorem exact_tag_resolution E rs devbranch l1 l2 major minor tail p1 p2 k b :
  head_tags E = l1 ++ ("yocto-" +:+ major +:+ "." +:+ minor +:+ tail) :: l2 →
  Forall not_yocto l1 →
  Py.count_char "." major = 0 → Py.count_char "." minor = 0 →
  tail = "" ∨ (∃ rest, tail = "." +:+ rest) →
  rs = p1 ++ (k, major +:+ "." +:+ minor) :: p2 →
  Forall (λ p, p.2 ≠ major +:+ "." +:+ minor) p1 →
  bitbake_mapping !! k = Some b →
  resolve_version E rs devbranch
  = Ok {| ourversion := major +:+ "." +:+ minor +:+ tail; ourseries := Some k;
          bitbakeversion := Some b; is_branch_tip := false |}.
Proof.
  intros Htags Hskip Hmajor Hminor Htail -> Hfirst Hb.
  unfold resolve_version. fold (head_tags E). rewrite Htags.
  rewrite resolve_from_tags_skip by done.
  cbn [resolve_from_tags].
  assert (Py.startswith "yocto-" ("yocto-" +:+ major +:+ "." +:+ minor +:+ tail) = true)
    as -> by (apply startswith_spec; eauto).
  change (Py.drop 6 ("yocto-" +:+ major +:+ "." +:+ minor +:+ tail))
    with (major +:+ "." +:+ minor +:+ tail).
  cbv zeta. rewrite major_minor by done.
  rewrite find_series_first by done. rewrite Hb. done.
Qed.

Lemma exact_tag_resolution_witness :
  resolve_version env_on_tag
    [("wrynose", "6.0"); ("whinlatter", "5.3"); ("scarthgap", "5.0")] "wrynose"
  = Ok {| ourversion := "5" +:+ "." +:+ "3" +:+ ".1"; ourseries := Some "whinlatter";
          bitbakeversion := Some "2.16"; is_branch_tip := false |}.
Proof.
  apply (exact_tag_resolution env_on_tag _ "wrynose" ["v1"] [] "5" "3" ".1"
           [("wrynose", "6.0")] [("scarthgap", "5.0")] "whinlatter" "2.16").
  - reflexivity.
  - compute_done.
  - reflexivity.
  - reflexivity.
  - right. by exists "1".
  - reflexivity.
  - compute_done.
  - reflexivity.
Defined.

(** X8: a tag yocto-<version> at HEAD whose series version no series of the
    registry has leaves the series unset; the build then fails with
    [ValueError] at [series.index(ourseries)], before any file is written. *)
Theorem unknown_tag_series_is_value_error E ar devbranch lts rs l1 l2 version w :
  head_tags E = l1 ++ ("yocto-" +:+ version) :: l2 →
  Forall not_yocto l1 →
  Forall (λ p, p.2 ≠ Py.join "." (take 2 (Py.split "." version))) rs →
  build E ar devbranch lts rs w = (Raise ValueError, w).
Proof.
  intros Htags Hskip Hnone. unfold build, resolve_version.
  fold (head_tags E). rewrite Htags.
  rewrite resolve_from_tags_skip by done. cbn [resolve_from_tags].
  assert (Py.startswith "yocto-" ("yocto-" +:+ version) = true)
    as -> by (apply startswith_spec; eauto).
  change (Py.drop 6 ("yocto-" +:+ version)) with version. cbv zeta.
  rewrite find_series_none by done. reflexivity.
Qed.

Lemma unknown_tag_series_is_value_error_witness :
  build env_on_unknown_tag ["whinlatter"] "wrynose" []
    [("wrynose", "6.0"); ("whinlatter", "5.3")] world_templates
  = (Raise ValueError, world_templates).
Proof.
  apply (unknown_tag_series_is_value_error env_on_unknown_tag _ _ _ _ [] [] "9.9").
  - reflexivity.
  - constructor.
  - compute_done.
Defined.

Lemma resolve_from_tags_inv rs devbranch tags r :
  resolve_from_tags rs tags = Ok (Some r) → resolved_inv rs devbranch r.
Proof.
  induction tags as [|t tags IH]; [done|]. simpl.
  destruct (Py.startswith "yocto-" t); [|done].
  destruct (find_series _ rs) as [k|] eqn:Hfind.
  - destruct (bitbake_mapping !! k) as [b|] eqn:Hb; simpl; [|done].
    intros [= <-]. unfold resolved_inv. simpl. split; [done|]. split; [|done].
    intros s [= <-]. left. rewrite Hb. split; [by eapply find_series_key|]. eauto.
  - intros [= <-]. unfold resolved_inv. simpl. split; [done|]. split; done.
Qed.

Lemma resolve_from_branch_inv E rs devbranch r :
  resolve_from_branch E rs devbranch = Ok r → resolved_inv rs devbranch r.
Proof.
  unfold resolve_from_branch. cbv zeta.
  match goal with |- context [decide (?b = "master")] => generalize b end.
  intros branch.
  destruct (decide (branch = "master")).
  { intros [= <-]. unfold resolved_inv. simpl. split; [done|]. split; [|done].
    intros s [= <-]. right. split; [done|]. split; [left|done]. }
  destruct (decide (branch = "master-next")).
  { intros [= <-]. unfold resolved_inv. simpl. split; [done|]. split; [|done].
    intros s [= <-]. right. split; [done|]. split; [right; left|done]. }
  destruct (bitbake_mapping !! branch) as [b|] eqn:Hb; simpl; [|done].
  unfold OD.getitem. destruct (OD.get branch rs) as [v|] eqn:Hv; simpl; [|done].
  assert (Hkey : branch ∈ OD.keys rs) by (by eapply get_some_key).
  destruct (decide (_ ≠ _)); intros [= <-]; unfold resolved_inv; simpl.
  - split; [done|]. split; [|done]. intros s [= <-]. left. rewrite Hb. eauto.
  - split; [eauto|]. split; [|done]. intros s [= <-]. left. rewrite Hb. eauto.
Qed.

Lemma resolve_version_inv E rs devbranch r :
  resolve_version E rs devbranch = Ok r → resolved_inv rs devbranch r.
Proof.
  unfold resolve_version.
  destruct (resolve_from_tags rs _) as [[r'|]|] eqn:Htags; simpl; [| |done].
  - intros [= <-]. by eapply resolve_from_tags_inv.
  - apply resolve_from_branch_inv.
Qed.


Lemma index_present (x : string) (l : list string) : x ∈ l → ∃ i, Py.index x l = Ok i.
Proof.
  induction l as [|y l IH]; [by intros ?%elem_of_nil|]. simpl.
  destruct (decide (y = x)) as [|Hne]; [eauto|].
  intros [?|Hin]%elem_of_cons; [congruence|].
  destruct (IH Hin) as [i ->]. simpl. eauto.
Qed.

(** X9: whichever way the version is resolved (tag, branch or guess), a
    branch tip has a series of the registry and the version
    <series version>-tip; a resolved series is a key of the registry with a
    mapped BitBake version, or it is the dev branch with the version [dev]
    or [next]; an unset series comes with an unset BitBake version. So, with
    the dev branch in the registry, the list of the series after a resolved
    series can always be computed and is not empty. *)
Theorem resolve_version_invariant E rs devbranch r :
  resolve_version E rs devbranch = Ok r →
  resolved_inv rs devbranch r
  ∧ (∀ s, ourseries r = Some s → devbranch ∈ OD.keys rs →
          ∃ previous, previousseries rs s = Ok previous ∧ previous ≠ []).
Proof.
  intros Hr. pose proof (resolve_version_inv _ _ _ _ Hr) as Hinv.
  split; [done|]. intros s Hs Hdev.
  destruct Hinv as (_ & Hseries & _).
  assert (Hin : s ∈ OD.keys rs).
  { destruct (Hseries s Hs) as [[? _]|[-> _]]; done. }
  unfold previousseries. destruct (index_present _ _ Hin) as [i ->]. simpl.
  eexists. split; [done|]. unfold or_list. by destruct (List.skipn _ _).
Qed.

Lemma resolve_version_invariant_witness :
  resolved_inv [("wrynose", "6.0"); ("whinlatter", "5.3"); ("scarthgap", "5.0");
                ("nanbield", "4.3")] "wrynose"
    {| ourversion := "5.0-tip"; ourseries := Some "scarthgap";
       bitbakeversion := Some "2.8"; is_branch_tip := true |}
  ∧ (∀ s, Some "scarthgap" = Some s →
          "wrynose" ∈ OD.keys [("wrynose", "6.0"); ("whinlatter", "5.3");
                               ("scarthgap", "5.0"); ("nanbield", "4.3")] →
          ∃ previous,
            previousseries [("wrynose", "6.0"); ("whinlatter", "5.3");
                            ("scarthgap", "5.0"); ("nanbield", "4.3")] s = Ok previous
            ∧ previous ≠ []).
Proof.
  apply (resolve_version_invariant env_scarthgap_tip).
  reflexivity.
Defined.

Lemma resolve_from_tags_none rs tags :
  Forall not_yocto tags → resolve_from_tags rs tags = Ok None.
Proof.
  intros Htags. rewrite <- (app_nil_r tags). by rewrite resolve_from_tags_skip.
Qed.

(** X19: with no yocto- tag at HEAD the current branch decides, and the
    commit counts are not asked for: on master the version is [dev] and on
    master-next it is [next], both with the dev branch as series; on a
    branch named after a series of the registry the version is the series
    version followed by [-tip] when the short hashes of HEAD and of the
    branch agree, and by [-] and the short hash of HEAD otherwise. *)
Theorem named_branch_resolution E rs devbranch :
  Forall not_yocto (head_tags E) →
  (current_branch E = "master" →
   resolve_version E rs devbranch
   = Ok {| ourversion := "dev"; ourseries := Some devbranch;
           bitbakeversion := Some "dev"; is_branch_tip := false |})
  ∧ (current_branch E = "master-next" →
     resolve_version E rs devbranch
     = Ok {| ourversion := "next"; ourseries := Some devbranch;
             bitbakeversion := Some "next"; is_branch_tip := false |})
  ∧ (∀ sv b,
       current_branch E ≠ "" → current_branch E ≠ "master" →
       current_branch E ≠ "master-next" →
       OD.get (current_branch E) rs = Some sv →
       bitbake_mapping !! current_branch E = Some b →
       resolve_version E rs devbranch
       = Ok {| ourversion :=
                 if decide (get_abbrev_hash E "HEAD" = get_abbrev_hash E (current_branch E))
                 then sv +:+ "-tip" else sv +:+ "-" +:+ get_abbrev_hash E "HEAD";
               ourseries := Some (current_branch E);
               bitbakeversion := Some b;
               is_branch_tip :=
                 bool_decide (get_abbrev_hash E "HEAD"
                              = get_abbrev_hash E (current_branch E)) |}).
Proof.
  intros Htags. unfold resolve_version. fold (head_tags E).
  rewrite resolve_from_tags_none by done. cbn [mbind result_bind].
  unfold resolve_from_branch. fold (current_branch E). cbv zeta.
  split; [|split].
  - intros ->. rewrite bool_decide_eq_false_2 by done.
    unfold Py.list_in. rewrite bool_decide_eq_true_2; [done|].
    apply elem_of_app. right. left.
  - intros ->. rewrite bool_decide_eq_false_2 by done.
    unfold Py.list_in. rewrite bool_decide_eq_true_2; [done|].
    apply elem_of_app. right. right. left.
  - intros sv b Hne Hm Hmn Hsv Hb.
    rewrite bool_decide_eq_false_2 by done.
    unfold Py.list_in. rewrite bool_decide_eq_true_2.
    2:{ apply elem_of_app. left. by eapply get_some_key. }
    cbn [orb negb].
    destruct (decide (current_branch E = "master")); [done|].
    destruct (decide (current_branch E = "master-next")); [done|].
    rewrite Hb. unfold OD.getitem. rewrite Hsv. cbn [or_raise mbind result_bind].
    fold (get_abbrev_hash E "HEAD"). fold (get_abbrev_hash E (current_branch E)).
    destruct (decide (get_abbrev_hash E "HEAD" ≠ get_abbrev_hash E (current_branch E)))
      as [Hdiff|Hsame].
    + rewrite bool_decide_eq_false_2 by done.
      by destruct (decide (get_abbrev_hash E "HEAD" = get_abbrev_hash E (current_branch E))).
    + apply dec_stable in Hsame. rewrite bool_decide_eq_true_2 by done.
      by destruct (decide (get_abbrev_hash E "HEAD" = get_abbrev_hash E (current_branch E))).
Qed.

Lemma named_branch_resolution_witness :
  resolve_version env_behind_tip
    [("wrynose", "6.0"); ("whinlatter", "5.3"); ("scarthgap", "5.0")] "wrynose"
  = Ok {| ourversion := "5.3" +:+ "-" +:+ "4d2acc043"; ourseries := Some "whinlatter";
          bitbakeversion := Some "2.16"; is_branch_tip := false |}.
Proof.
  destruct (named_branch_resolution env_behind_tip
              [("wrynose", "6.0"); ("whinlatter", "5.3"); ("scarthgap", "5.0")] "wrynose")
    as (_ & _ & Hseries).
  - constructor.
  - apply (Hseries "5.3" "2.16"); done.
Defined.

End resolution_more.

(** ** More on the replacement table and on poky.yaml *)

Section table_more.

Implicit Types (t : gmap string string) (rs : OD.t).

Lemma base_replacements_other d lt sv o v b m l0 k :
  k ∉ placeholder_names → base_replacements d lt sv o v b m l0 !! k = None.
Proof.
  unfold placeholder_names. rewrite !not_elem_of_cons.
  intros (?&?&?&?&?&?&?&?&?&?&?&?).
  unfold base_replacements. by rewrite !lookup_insert_ne by done.
Qed.

Lemma base_replacements_present d lt sv o v b m l0 k :
  k ∈ take 10 placeholder_names → is_Some (base_replacements d lt sv o v b m l0 !! k).
Proof.
  unfold placeholder_names, base_replacements. simpl take. intros Hk.
  repeat (apply elem_of_cons in Hk as [->|Hk];
          [rewrite ?lookup_insert_ne by done; rewrite lookup_insert_eq; eauto|]).
  by apply elem_of_nil in Hk.
Qed.

Lemma add_pokyversion_inv sv v t0 t :
  add_pokyversion sv v t0 = Ok t → t = t0 ∨ ∃ p, t = <["POKYVERSION" := p]> t0.
Proof.
  unfold add_pokyversion. destruct (poky_mapping !! sv); [|intros [= <-]; by left].
  destruct (decide (v ≠ sv)).
  - destruct (Py.item _ 1); simpl; [|done]. intros [= <-]. eauto.
  - simpl. intros [= <-]. eauto.
Qed.

(** X10: the table has the ten placeholder names of the dictionary literal
    and at most POKYVERSION besides; so a line of poky.yaml.in whose key is
    not one of these eleven names is written unchanged, whatever the
    checkout. *)
Theorem table_keys_closed rs d lt o v b previous lts t :
  make_replacements rs d lt o v b previous lts = Ok t →
  (∀ k, k ∈ take 10 placeholder_names → is_Some (t !! k))
  ∧ (∀ k, is_Some (t !! k) → k ∈ placeholder_names)
  ∧ (∀ line, line_key line ∉ placeholder_names → render_line t line = line).
Proof.
  intros Ht.
  apply make_replacements_inv in Ht as (lt' & sv & m & l0 & -> & Hsv & Hm & Hl0 & Ht).
  assert (Hclosed : ∀ k, k ∉ placeholder_names → t !! k = None).
  { intros k Hk.
    destruct (add_pokyversion_inv _ _ _ _ Ht) as [->|[p ->]].
    - by apply base_replacements_other.
    - rewrite lookup_insert_ne; [by apply base_replacements_other|].
      intros <-. apply Hk. unfold placeholder_names. set_solver. }
  split; [|split].
  - intros k Hk.
    assert (k ≠ "POKYVERSION").
    { intros ->. revert Hk. unfold placeholder_names. simpl take.
      rewrite !elem_of_cons, elem_of_nil. intros Hk. by decompose [or] Hk. }
    rewrite (add_pokyversion_other _ _ _ _ _ Ht) by done.
    by apply base_replacements_present.
  - intros k [x Hx]. destruct (decide (k ∈ placeholder_names)) as [|Hk]; [done|].
    rewrite Hclosed in Hx by done. done.
  - intros line Hk. rewrite render_line_unfold. fold (line_key line).
    by rewrite Hclosed.
Qed.

Lemma table_keys_closed_witness :
  (∀ k, k ∈ take 10 placeholder_names →
        is_Some (base_replacements "5.3" "5.3" "5.3" "whinlatter" "5.3" "2.16" "walnascar" "d"
                   !! k))
  ∧ (∀ k, is_Some (base_replacements "5.3" "5.3" "5.3" "whinlatter" "5.3" "2.16" "walnascar" "d"
                     !! k) → k ∈ placeholder_names)
  ∧ (∀ line, line_key line ∉ placeholder_names →
             render_line
               (base_replacements "5.3" "5.3" "5.3" "whinlatter" "5.3" "2.16" "walnascar" "d")
               line = line).
Proof.
  apply (table_keys_closed [("whinlatter", "5.3"); ("walnascar", "5.2")]
           "5.3" (Some "5.3") "whinlatter" "5.3" "2.16" ["walnascar"] (AStr "dunfell")).
  reflexivity.
Defined.

(** X11: when some series after the resolved one is an LTS, the value of
    DISTRO_NAME_NO_CAP_LTS is the first of them in the order of the
    registry. *)
Theorem lastlts_is_first_later_lts rs d lt o v b l1 k l2 ltsseries t :
  Forall (λ x, x ∉ ltsseries) l1 → k ∈ ltsseries →
  make_replacements rs d lt o v b (l1 ++ k :: l2) (lastlts (l1 ++ k :: l2) ltsseries) = Ok t →
  t !! "DISTRO_NAME_NO_CAP_LTS" = Some k.
Proof.
  intros Hbefore Hk Ht.
  assert (Hfirst : ∃ rest, List.filter (λ x, Py.list_in x ltsseries) (l1 ++ k :: l2)
                           = k :: rest).
  { clear Ht. induction Hbefore as [|x l1 Hx _ IH]; simpl.
    - unfold Py.list_in at 1. rewrite bool_decide_eq_true_2 by done. eauto.
    - unfold Py.list_in at 1. by rewrite bool_decide_eq_false_2. }
  destruct Hfirst as [rest Hfirst].
  apply make_replacements_inv in Ht as (lt' & sv & m & l0 & -> & Hsv & Hm & Hl0 & Ht).
  rewrite (add_pokyversion_other _ _ _ _ _ Ht) by done.
  rewrite base_replacements_lts. rewrite (lastlts_first _ _ _ _ Hfirst) in Hl0.
  by simplify_eq.
Qed.

Lemma lastlts_is_first_later_lts_witness :
  (base_replacements "5.3" "5.3" "5.3" "whinlatter" "5.3" "2.16" "walnascar" "scarthgap")
    !! "DISTRO_NAME_NO_CAP_LTS" = Some "scarthgap".
Proof.
  apply (lastlts_is_first_later_lts
           [("whinlatter", "5.3"); ("walnascar", "5.2"); ("scarthgap", "5.0");
            ("kirkstone", "4.0")]
           "5.3" (Some "5.3") "whinlatter" "5.3" "2.16" ["walnascar"] "scarthgap"
           ["kirkstone"] ["scarthgap"; "kirkstone"]).
  - compute_done.
  - compute_done.
  - reflexivity.
Defined.

(** Stripping. *)
Lemma rstrip_app_space s : Py.rstrip (s +:+ " ") = Py.rstrip s.
Proof.
  induction s as [|c s IH]; [done|]. rewrite append_cons. cbn [Py.rstrip]. by rewrite IH.
Qed.

Lemma rstrip_idem s : Py.rstrip (Py.rstrip s) = Py.rstrip s.
Proof.
  induction s as [|c s IH]; [done|]. cbn [Py.rstrip].
  destruct (Py.rstrip s) as [|e r] eqn:Hr.
  - destruct (Py.is_space c) eqn:Hc; [done|]. cbn [Py.rstrip]. by rewrite Hc.
  - cbn [Py.rstrip]. cbn [Py.rstrip] in IH. by rewrite IH.
Qed.

Lemma lstrip_first s c r : Py.lstrip s = String c r → Py.is_space c = false.
Proof.
  induction s as [|d s IH]; [done|]. simpl.
  destruct (Py.is_space d) eqn:Hd; [done|]. by intros [= <- _].
Qed.

Lemma rstrip_first s c r : Py.rstrip s = String c r → ∃ s', s = String c s'.
Proof.
  destruct s as [|d s]; [done|]. simpl.
  destruct (Py.rstrip s); [destruct (Py.is_space d)|]; intros [= <- _]; eauto.
Qed.

Lemma strip_with_space x : Py.strip (Py.strip x +:+ " ") = Py.strip x.
Proof.
  destruct (Py.strip x) as [|c k] eqn:Hk; [done|].
  assert (Hc : Py.is_space c = false).
  { unfold Py.strip in Hk. destruct (rstrip_first _ _ _ Hk) as [s' Hs'].
    by eapply lstrip_first. }
  unfold Py.strip at 1. rewrite append_cons. cbn [Py.lstrip]. rewrite Hc.
  rewrite <- append_cons, rstrip_app_space, <- Hk.
  unfold Py.strip. apply rstrip_idem.
Qed.

Lemma count_char_append c s u :
  Py.count_char c (s +:+ u) = Py.count_char c s + Py.count_char c u.
Proof.
  induction s as [|d s IH]; [done|]. rewrite append_cons. simpl. rewrite IH. lia.
Qed.

Lemma before_first_none c s : Py.count_char c (before_first c s) = 0.
Proof.
  induction s as [|d s IH]; [done|]. simpl.
  destruct (decide (d = c)) as [|Hne]; [done|]. simpl.
  by destruct (decide (d = c)).
Qed.

Lemma before_first_app c k rest :
  Py.count_char c k = 0 → before_first c (k +:+ String c rest) = k.
Proof.
  induction k as [|d k IH].
  - intros _. change ("" +:+ String c rest) with (String c rest). simpl.
    by destruct (decide (c = c)).
  - cbn [Py.count_char]. destruct (decide (d = c)) as [|Hne]; [done|]. intros Hk.
    rewrite append_cons. simpl. destruct (decide (d = c)); [done|]. by rewrite IH.
Qed.

Lemma line_key_rewritten line v : line_key (rewritten (line_key line) v) = line_key line.
Proof.
  unfold line_key at 1, rewritten.
  replace (line_key line +:+ " : " +:+ dquote +:+ v +:+ dquote +:+ nl)
    with ((line_key line +:+ " ") +:+ String ":" (" " +:+ dquote +:+ v +:+ dquote +:+ nl))
    by (by rewrite append_assoc).
  rewrite before_first_app.
  - apply strip_with_space.
  - rewrite count_char_append. unfold line_key.
    rewrite count_char_strip by done. by rewrite before_first_none.
Qed.

(** X12: rendering a line is idempotent: a rendered line, given again as a
    line of the template with the same table, is written unchanged. *)
Theorem render_line_idempotent t line :
  render_line t (render_line t line) = render_line t line.
Proof.
  rewrite (render_line_unfold t line). fold (line_key line).
  destruct (t !! line_key line) as [v|] eqn:Hk.
  - rewrite render_line_unfold. fold (line_key (rewritten (line_key line) v)).
    by rewrite line_key_rewritten, Hk.
  - rewrite render_line_unfold. fold (line_key line). by rewrite Hk.
Qed.







End table_more.

(** ** More on the files *)

Section files_more.

Implicit Types (w : world) (t : gmap string string) (rs : OD.t) (E : Env).









(** X15: for the lists that [get_releases] returns, writing releases.rst
    never fails: the file becomes the two headers with the supported and the
    outdated sections, whatever it held before, and nothing else changes. *)
Theorem releases_rst_after_get_releases E releases ar dev lts rs w :
  get_releases releases = Ok (ar, dev, lts, rs) →
  write_releases_rst E ar dev rs w
  = (Ok (), {| files := <[releases_rst := releases_rst_text rs (all_tags E) dev ar]> (files w);
               printed := printed w |}).
Proof.
  intros Hget. apply write_releases_rst_content.
  intros a Ha. destruct (get_releases_names _ _ _ _ _ Hget) as (Hactive & _). auto.
Qed.

Lemma releases_rst_after_get_releases_witness :
  write_releases_rst env_scarthgap_tip ["whinlatter"; "scarthgap"] "wrynose"
    [("wrynose", "6.0"); ("whinlatter", "5.3"); ("scarthgap", "5.0"); ("nanbield", "4.3")]
    world_templates
  = (Ok (), {| files :=
                 <[releases_rst :=
                     releases_rst_text
                       [("wrynose", "6.0"); ("whinlatter", "5.3"); ("scarthgap", "5.0");
                        ("nanbield", "4.3")]
                       (all_tags env_scarthgap_tip) "wrynose" ["whinlatter"; "scarthgap"]]>
                 (files world_templates);
               printed := printed world_templates |}).
Proof.
  apply (releases_rst_after_get_releases env_scarthgap_tip registry_example _ _ ["scarthgap"]).
  reflexivity.
Defined.

End files_more.

(** ** What a run does to the files *)

Section frame.

Implicit Types (w : world) (rs : OD.t) (E : Env) (paths : list string).

Lemma touches_only_lift {A} paths (r : result A) : touches_only paths (lift r).
Proof. by intros w p _. Qed.

Lemma touches_only_bind {A B} paths (m : M A) (f : A → M B) :
  touches_only paths m → (∀ a, touches_only paths (f a)) →
  touches_only paths (m ≫= f).
Proof.
  intros Hm Hf w p Hp. unfold mbind, M_bind. specialize (Hm w p Hp).
  destruct (m w) as [[a|e] w']; simpl in *; [|done].
  by rewrite (Hf a w' p Hp).
Qed.

Lemma touches_only_for {A} paths (l : list A) (body : A → M unit) :
  (∀ x, touches_only paths (body x)) → touches_only paths (for_ l body).
Proof.
  intros Hbody. induction l as [|x l IH]; simpl; [by intros w p _|].
  apply touches_only_bind; auto.
Qed.

Lemma touches_only_write paths path s : path ∈ paths → touches_only paths (write path s).
Proof.
  intros Hin w p Hp. simpl. apply lookup_insert_ne. by intros ->.
Qed.

Lemma touches_only_open paths path : path ∈ paths → touches_only paths (open_w path).
Proof.
  intros Hin w p Hp. simpl. apply lookup_insert_ne. by intros ->.
Qed.

Lemma keeps_files_lift {A} (r : result A) : keeps_files (lift r).
Proof. by intros w p Hp. Qed.

Lemma keeps_files_bind {A B} (m : M A) (f : A → M B) :
  keeps_files m → (∀ a, keeps_files (f a)) → keeps_files (m ≫= f).
Proof.
  intros Hm Hf w p Hp. unfold mbind, M_bind. specialize (Hm w p Hp).
  destruct (m w) as [[a|e] w']; simpl in *; [|done]. by apply Hf.
Qed.

Lemma keeps_files_for {A} (l : list A) (body : A → M unit) :
  (∀ x, keeps_files (body x)) → keeps_files (for_ l body).
Proof.
  intros Hbody. induction l as [|x l IH]; simpl; [by intros w p Hp|].
  apply keeps_files_bind; auto.
Qed.

Lemma keeps_files_insert w path s p :
  is_Some (files w !! p) → is_Some (<[path := s]> (files w) !! p).
Proof.
  intros Hp. destruct (decide (path = p)) as [->|Hne].
  - rewrite lookup_insert_eq. eauto.
  - by rewrite lookup_insert_ne.
Qed.

Lemma keeps_files_write path s : keeps_files (write path s).
Proof. intros w p Hp. by apply keeps_files_insert. Qed.

Lemma keeps_files_open path : keeps_files (open_w path).
Proof. intros w p Hp. by apply keeps_files_insert. Qed.

(** Goals [touches_only paths m] and [keeps_files m], by the shape of the
    code. *)
Ltac frame_step :=
  match goal with
  | |- touches_only _ (lift _) => apply touches_only_lift
  | |- touches_only _ (_ ≫= _) => apply touches_only_bind; [|intros ?]
  | |- touches_only _ (for_ _ _) => apply touches_only_for; intros ?
  | |- touches_only _ (if ?b then _ else _) => destruct b
  | |- touches_only _ (write _ _) => apply touches_only_write; compute_done
  | |- touches_only _ (open_w _) => apply touches_only_open; compute_done
  | |- touches_only _ (mret _) => by intros ? ? _
  | |- touches_only _ (print _) => by intros ? ? _
  | |- touches_only _ (exists_ _) => by intros ? ? _
  | |- touches_only _ (read_file _) => by intros ? ? _
  | |- keeps_files (lift _) => apply keeps_files_lift
  | |- keeps_files (_ ≫= _) => apply keeps_files_bind; [|intros ?]
  | |- keeps_files (for_ _ _) => apply keeps_files_for; intros ?
  | |- keeps_files (if ?b then _ else _) => destruct b
  | |- keeps_files (write _ _) => apply keeps_files_write
  | |- keeps_files (open_w _) => apply keeps_files_open
  | |- keeps_files (mret _) => by intros ? ? ?
  | |- keeps_files (print _) => by intros ? ? ?
  | |- keeps_files (exists_ _) => by intros ? ? ?
  | |- keeps_files (read_file _) => by intros ? ? ?
  end.

Ltac frame := repeat frame_step.

Lemma touches_only_render_poky_yaml t : touches_only ["poky.yaml"] (render_poky_yaml t).
Proof. unfold render_poky_yaml. frame. Qed.

Lemma touches_only_weaken {A} paths paths' (m : M A) :
  paths ⊆ paths' → touches_only paths m → touches_only paths' m.
Proof. intros Hsub Hm w p Hp. apply Hm. intros Hin. by apply Hp, Hsub. Qed.

Lemma touches_only_render_switchers E ar rs :
  touches_only output_paths (render_switchers E ar rs).
Proof. unfold render_switchers, switchers_line. frame. Qed.

Lemma touches_only_write_releases_rst E ar dev rs :
  touches_only output_paths (write_releases_rst E ar dev rs).
Proof.
  unfold write_releases_rst, supported_section, outdated_section, write_title, write_bullets.
  frame.
Qed.

Lemma touches_only_build E ar dev lts rs : touches_only output_paths (build E ar dev lts rs).
Proof.
  unfold build. frame.
  - apply (touches_only_weaken ["poky.yaml"]); [|apply touches_only_render_poky_yaml].
    intros p ->%list_elem_of_singleton. left.
  - apply touches_only_render_switchers.
  - apply touches_only_write_releases_rst.
Qed.

(** X16: whatever the environment and however the run ends, the script
    changes no file but its three outputs poky.yaml,
    sphinx-static/switchers.js and releases.rst; in particular the templates
    and the registry are never written. *)
Theorem script_touches_only_outputs E w p :
  p ∉ output_paths → files (script E w).2 !! p = files w !! p.
Proof.
  revert w p. change (touches_only output_paths (script E)).
  unfold script. apply touches_only_bind; [apply touches_only_lift|].
  intros [[[ar dev] lts] rs]. frame. apply touches_only_build.
Qed.

Lemma script_touches_only_outputs_witness :
  files (script env_scarthgap_tip world_templates).2 !! "poky.yaml.in"
  = files world_templates !! "poky.yaml.in".
Proof.
  apply (script_touches_only_outputs env_scarthgap_tip world_templates "poky.yaml.in").
  compute_done.
Defined.

Lemma keeps_files_render_poky_yaml t : keeps_files (render_poky_yaml t).
Proof. unfold render_poky_yaml. frame. Qed.

Lemma keeps_files_switchers_line E ar rs line : keeps_files (switchers_line E ar rs line).
Proof. unfold switchers_line. frame. Qed.

Lemma keeps_files_write_releases_rst E ar dev rs : keeps_files (write_releases_rst E ar dev rs).
Proof.
  unfold write_releases_rst, supported_section, outdated_section, write_title, write_bullets.
  frame.
Qed.

Lemma bind_ok_inv {A B} (m : M A) (f : A → M B) w b w2 :
  (m ≫= f) w = (Ok b, w2) → ∃ a w1, m w = (Ok a, w1) ∧ f a w1 = (Ok b, w2).
Proof.
  unfold mbind, M_bind. destruct (m w) as [[a|e] w1]; [eauto|done].
Qed.

Lemma bind_lift_ok_inv {A B} (r : result A) (f : A → M B) w b w2 :
  (lift r ≫= f) w = (Ok b, w2) → ∃ a, r = Ok a ∧ f a w = (Ok b, w2).
Proof. destruct r as [a|e]; [eauto|done]. Qed.

(** Opening a file and going on without removing files leaves the file
    there. *)
Lemma open_then_exists path (m : M unit) w :
  keeps_files m → is_Some (files ((open_w path ;; m) w).2 !! path).
Proof.
  intros Hm.
  change ((open_w path ;; m) w)
    with (m {| files := <[path := ""]> (files w); printed := printed w |}).
  apply Hm. simpl. rewrite lookup_insert_eq. eauto.
Qed.

Lemma build_ok E ar dev lts rs w w' :
  build E ar dev lts rs w = (Ok (), w') →
  is_Some (files w !! "sphinx-static/switchers.js.in")
  ∧ is_Some (files w' !! switchers_js)
  ∧ is_Some (files w' !! releases_rst)
  ∧ (is_Some (files w !! "poky.yaml.in") → is_Some (files w' !! "poky.yaml")).
Proof.
  unfold build. intros H.
  apply bind_lift_ok_inv in H as (r & _ & H).
  apply bind_lift_ok_inv in H as (s & _ & H).
  apply bind_lift_ok_inv in H as (previous & _ & H). cbv zeta in H.
  apply bind_lift_ok_inv in H as (d & _ & H).
  apply bind_lift_ok_inv in H as (t & _ & H).
  apply bind_ok_inv in H as ([] & w1 & Hpoky & H).
  apply bind_ok_inv in H as ([] & w2 & Hsw & Hrst).
  assert (Hw2 : is_Some (files w2 !! switchers_js)
                ∧ is_Some (files w1 !! "sphinx-static/switchers.js.in")).
  { unfold render_switchers in Hsw.
    apply bind_ok_inv in Hsw as (content & w1' & Hread & Hsw).
    unfold read_file in Hread.
    destruct (files w1 !! "sphinx-static/switchers.js.in") eqn:Hin; [|done].
    simpl in Hread. simplify_eq. split; [|eauto].
    pose proof (open_then_exists switchers_js
                  (for_ (readlines content) (switchers_line E ar rs)) w1') as Hex.
    rewrite Hsw in Hex. apply Hex.
    apply keeps_files_for. intros line. apply keeps_files_switchers_line. }
  destruct Hw2 as [Hw2 Hin].
  pose proof (keeps_files_write_releases_rst E ar dev rs w2) as Hkeep.
  rewrite Hrst in Hkeep. simpl in Hkeep.
  split; [|split; [|split]].
  - pose proof (touches_only_render_poky_yaml t w "sphinx-static/switchers.js.in") as Hf.
    rewrite Hpoky in Hf. simpl in Hf. rewrite <- Hf; [done|compute_done].
  - by apply Hkeep.
  - unfold write_releases_rst in Hrst. cbv zeta in Hrst.
    match type of Hrst with
    | (open_w _ ;; ?m) _ = _ =>
        pose proof (open_then_exists releases_rst m w2) as Hex
    end.
    rewrite Hrst in Hex. apply Hex.
    unfold supported_section, outdated_section, write_title, write_bullets. frame.
  - intros [content Hc]. apply Hkeep.
    assert (is_Some (files w1 !! "poky.yaml")) as Hp.
    { rewrite (render_poky_yaml_content _ _ _ Hc) in Hpoky. simplify_eq. simpl.
      rewrite lookup_insert_eq. eauto. }
    unfold render_switchers in Hsw.
    apply bind_ok_inv in Hsw as (c & w1' & Hread & Hsw).
    unfold read_file in Hread. assert (w1' = w1) as -> by (by simplify_eq).
    match type of Hsw with
    | ?m w1 = _ => assert (keeps_files m) as Hk
    end.
    { frame. apply keeps_files_switchers_line. }
    specialize (Hk w1 "poky.yaml" Hp). by rewrite Hsw in Hk.
Qed.

(** X17: a run can only succeed with the template switchers.js.in in place,
    while poky.yaml.in is optional; after a successful run switchers.js and
    releases.rst exist, and so does poky.yaml if its template did. *)
Theorem successful_run E w :
  (script E w).1 = Ok () →
  is_Some (files w !! "sphinx-static/switchers.js.in")
  ∧ is_Some (files (script E w).2 !! switchers_js)
  ∧ is_Some (files (script E w).2 !! releases_rst)
  ∧ (is_Some (files w !! "poky.yaml.in") → is_Some (files (script E w).2 !! "poky.yaml")).
Proof.
  destruct (script E w) as [res w'] eqn:Hrun. simpl. intros ->.
  unfold script in Hrun.
  apply bind_lift_ok_inv in Hrun as ([[[ar dev] lts] rs] & _ & Hrun).
  destruct (bool_decide (sys_argv E !! 1 = Some "getlatest")).
  { apply bind_lift_ok_inv in Hrun as (a & _ & Hrun). done. }
  apply bind_lift_ok_inv in Hrun as ([] & _ & Hrun).
  apply bind_lift_ok_inv in Hrun as ([] & _ & Hrun).
  by apply build_ok in Hrun.
Qed.

Lemma successful_run_witness :
  is_Some (files world_templates !! "sphinx-static/switchers.js.in")
  ∧ is_Some (files (script env_scarthgap_tip world_templates).2 !! switchers_js)
  ∧ is_Some (files (script env_scarthgap_tip world_templates).2 !! releases_rst)
  ∧ (is_Some (files world_templates !! "poky.yaml.in") →
     is_Some (files (script env_scarthgap_tip world_templates).2 !! "poky.yaml")).
Proof.
  apply (successful_run env_scarthgap_tip world_templates).
  vm_compute. reflexivity.
Defined.

End frame.

(** ** Errors of the latest tag *)

Section latest_tag_errors.

Lemma keyed_int_fails l v :
  v ∈ l → Py.int v = None → Py.keyed_int l = Raise ValueError.
Proof.
  induction l as [|x l IH]; [by intros ?%elem_of_nil|]. simpl.
  intros Hin Hv. destruct (Py.int x) as [k|] eqn:Hx; simpl; [|done].
  apply elem_of_cons in Hin as [->|Hin]; [congruence|].
  by rewrite IH.
Qed.

(** X18: [get_latest_tag] raises [KeyError] for a branch that is not in the
    registry, whatever the repository holds, and [ValueError] as soon as one
    of the tags that Git lists for the series does not leave an integer once
    its prefix is replaced. *)
Theorem get_latest_tag_errors E rs branch :
  (OD.get branch rs = None → get_latest_tag E rs branch = Raise KeyError)
  ∧ (∀ sv tag, OD.get branch rs = Some sv → tag ∈ tag_list E sv →
       Py.int (point_text sv tag) = None →
       get_latest_tag E rs branch = Raise ValueError).
Proof.
  split.
  - intros Hb. unfold get_latest_tag, OD.getitem. by rewrite Hb.
  - intros sv tag Hsv Htag Hint. unfold get_latest_tag, OD.getitem. rewrite Hsv.
    cbn [or_raise mbind result_bind].
    fold (point_text sv). fold (tag_list E sv). unfold Py.sorted_key_int.
    rewrite (keyed_int_fails _ (point_text sv tag)); [done| |done].
    apply list_elem_of_In, in_map, list_elem_of_In, Htag.
Qed.

Lemma get_latest_tag_errors_witness :
  (OD.get "whinlatter" [("whinlatter", "5.3")] = None →
   get_latest_tag (env_tags "yocto-5.3*" tags_with_candidate) [("whinlatter", "5.3")]
     "whinlatter" = Raise KeyError)
  ∧ (∀ sv tag, OD.get "whinlatter" [("whinlatter", "5.3")] = Some sv →
       tag ∈ tag_list (env_tags "yocto-5.3*" tags_with_candidate) sv →
       Py.int (point_text sv tag) = None →
       get_latest_tag (env_tags "yocto-5.3*" tags_with_candidate) [("whinlatter", "5.3")]
         "whinlatter" = Raise ValueError).
Proof.
  exact (get_latest_tag_errors (env_tags "yocto-5.3*" tags_with_candidate)
           [("whinlatter", "5.3")] "whinlatter").
Defined.

(** A tag such as yocto-5.3_rc1 is listed for the series 5.3 and is no
    integer. *)
Example latest_tag_with_candidate :
  get_latest_tag (env_tags "yocto-5.3*" tags_with_candidate) [("whinlatter", "5.3")]
    "whinlatter" = Raise ValueError.
Proof. reflexivity. Qed.

End latest_tag_errors.
